(** * A shallow embedding of [script.js], the behaviour layer of the portfolio page

    The script runs once, inside the [DOMContentLoaded] listener.  It wires
    five independent behaviours to the page: the theme toggle, the mobile
    navigation drawer, the typing animator, the scroll reveal and the 3D tilt.

    The page is modelled as a record [page]: the elements of the document in
    document order (an element is named by its position), the attributes of
    the root element, [localStorage], the console, the variables of the
    script, the pending timers and the targets of the intersection observer.
    A handler is a function on pages; a statement that can throw an uncaught
    [TypeError] (a method call on [null]) returns an [outcome].

    Numbers that stay integers in the script ([charIndex], [typeSpeed]) are
    [Z]; [roleIndex] is a [nat] because it is only ever an array position.
    The geometry of the tilt uses [number]: exact rationals extended with the
    special values of a JavaScript number.  Rounding is not modelled.  What
    [getBoundingClientRect()] returns is an input of the listener that asks
    for it, and a transform whose angles are not finite is not stored. *)

From Stdlib Require Import ZArith QArith String List Bool Lia Lqa.
From stdpp Require Import base gmap list strings.

Local Open Scope string_scope.
Local Open Scope list_scope.

(** ** JavaScript numbers, as far as the tilt needs them *)

Module Num.

Inductive number :=
| Finite (q : Q)
| PosInfinity
| NegInfinity
| NaN.

(** The infinity of a given sign. *)
Definition inf_of_sign (positive : bool) : number :=
  if positive then PosInfinity else NegInfinity.

Definition is_pos (q : Q) : bool := (0 <? Qnum q)%Z.
Definition is_zero (q : Q) : bool := (Qnum q =? 0)%Z.

(** [a - b] *)
Definition sub (a b : number) : number :=
  match a, b with
  | NaN, _ | _, NaN => NaN
  | Finite x, Finite y => Finite (x - y)
  | Finite _, PosInfinity => NegInfinity
  | Finite _, NegInfinity => PosInfinity
  | PosInfinity, PosInfinity => NaN
  | NegInfinity, NegInfinity => NaN
  | PosInfinity, _ => PosInfinity
  | NegInfinity, _ => NegInfinity
  end.

(** [a * b] *)
Definition mul (a b : number) : number :=
  match a, b with
  | NaN, _ | _, NaN => NaN
  | Finite x, Finite y => Finite (x * y)
  | Finite x, PosInfinity | PosInfinity, Finite x =>
      if is_zero x then NaN else inf_of_sign (is_pos x)
  | Finite x, NegInfinity | NegInfinity, Finite x =>
      if is_zero x then NaN else inf_of_sign (negb (is_pos x))
  | PosInfinity, PosInfinity | NegInfinity, NegInfinity => PosInfinity
  | PosInfinity, NegInfinity | NegInfinity, PosInfinity => NegInfinity
  end.

(** [a / b].  A zero divisor is taken to be [+0]: the only divisors of the
    script are half of a width or of a height, which are never negative. *)
Definition div (a b : number) : number :=
  match a, b with
  | NaN, _ | _, NaN => NaN
  | Finite x, Finite y =>
      if is_zero y
      then (if is_zero x then NaN else inf_of_sign (is_pos x))
      else Finite (x / y)
  | Finite _, (PosInfinity | NegInfinity) => Finite 0
  | PosInfinity, Finite y => inf_of_sign (is_pos y || is_zero y)
  | NegInfinity, Finite y => inf_of_sign (negb (is_pos y || is_zero y))
  | _, _ => NaN
  end.

(** [Number.isFinite(a)] *)
Definition is_finite (a : number) : bool :=
  match a with
  | Finite _ => true
  | _ => false
  end.

(** Two numbers denote the same value.  [NaN] is related to itself here:
    the relation compares what is written into the style, not [===]. *)
Definition same (a b : number) : Prop :=
  match a, b with
  | Finite x, Finite y => x == y
  | PosInfinity, PosInfinity | NegInfinity, NegInfinity | NaN, NaN => True
  | _, _ => False
  end.

End Num.

Abbreviation number := Num.number.
Infix "=n=" := Num.same (at level 70, no associativity).

(** ** The page *)

(** [DOMRect] of [getBoundingClientRect()]. *)
Record DOMRect := { rect_left : Q; rect_top : Q; rect_width : Q; rect_height : Q }.

(** The value of [style.transform], as the four numbers the script writes
    into the template string
    [perspective(..px) rotateX(..deg) rotateY(..deg) scale(..)]. *)
Record css_transform := {
  perspective : Q;
  rotateX : number;
  rotateY : number;
  scale : Q }.

(** The listeners of the script.  A closure is named by its place in the
    script and carries what it captured: [navMenu] may be [null]. *)
Inductive handler :=
| ThemeToggleClick
| MobileMenuClick (navMenu : option nat)
| NavLinkClick (navMenu : option nat)
| TiltMouseMove (card : nat)
| TiltMouseLeave (card : nat).

(** [rect] is the box the layout gives the element.  It is not what
    [getBoundingClientRect()] returns: that rectangle also depends on the
    transform in force, so a listener that asks for it is given the
    browser's answer as an argument. *)
Record element := {
  id : string;                          (* the id attribute, empty if none *)
  classList : list string;
  rect : DOMRect;
  transform : option css_transform;     (* style.transform, None if never set *)
  listeners : list (string * handler) }.

(** Variables of the typing effect, with the text of the typing element. *)
Record typing_state := {
  textContent : string;                 (* typingElement.textContent *)
  roleIndex : nat;
  charIndex : Z;
  isDeleting : bool;
  typeSpeed : Z }.

Record page := {
  elements : list element;              (* document order *)
  root_attributes : gmap string string; (* document.documentElement *)
  localStorage : gmap string string;
  console : list string;
  typing : typing_state;
  timers : list Z;                      (* delays of pending setTimeout(typeEffect, _) *)
  observed : gset nat }.                (* targets of revealObserver *)

(** What running a piece of the script gives: it completes, or an uncaught
    [TypeError] stops it in the page reached so far. *)
Inductive outcome :=
| Done (p : page)
| TypeError (p : page).

Definition bind (o : outcome) (k : page -> outcome) : outcome :=
  match o with
  | Done p => k p
  | TypeError p => TypeError p
  end.

Notation "'run' p <- o ; k" := (bind o (fun p => k))
  (at level 10, p name, o at level 100, k at level 200).

(** Field updates. *)
Definition set_elements (f : list element -> list element) (p : page) : page :=
  {| elements := f (elements p); root_attributes := root_attributes p;
     localStorage := localStorage p; console := console p;
     typing := typing p; timers := timers p; observed := observed p |}.

Definition set_root_attributes (f : gmap string string -> gmap string string)
    (p : page) : page :=
  {| elements := elements p; root_attributes := f (root_attributes p);
     localStorage := localStorage p; console := console p;
     typing := typing p; timers := timers p; observed := observed p |}.

Definition set_localStorage (f : gmap string string -> gmap string string)
    (p : page) : page :=
  {| elements := elements p; root_attributes := root_attributes p;
     localStorage := f (localStorage p); console := console p;
     typing := typing p; timers := timers p; observed := observed p |}.

Definition console_log (msg : string) (p : page) : page :=
  {| elements := elements p; root_attributes := root_attributes p;
     localStorage := localStorage p; console := console p ++ [msg];
     typing := typing p; timers := timers p; observed := observed p |}.

Definition set_typing (t : typing_state) (p : page) : page :=
  {| elements := elements p; root_attributes := root_attributes p;
     localStorage := localStorage p; console := console p;
     typing := t; timers := timers p; observed := observed p |}.

Definition setTimeout (delay : Z) (p : page) : page :=
  {| elements := elements p; root_attributes := root_attributes p;
     localStorage := localStorage p; console := console p;
     typing := typing p; timers := timers p ++ [delay]; observed := observed p |}.

Definition set_observed (f : gset nat -> gset nat) (p : page) : page :=
  {| elements := elements p; root_attributes := root_attributes p;
     localStorage := localStorage p; console := console p;
     typing := typing p; timers := timers p; observed := f (observed p) |}.

(** *** Elements *)

Definition set_classList (f : list string -> list string) (e : element) : element :=
  {| id := id e; classList := f (classList e); rect := rect e;
     transform := transform e; listeners := listeners e |}.

Definition set_transform (t : css_transform) (e : element) : element :=
  {| id := id e; classList := classList e; rect := rect e;
     transform := Some t; listeners := listeners e |}.

(** [e.style.transform = `.. rotateX(${x}deg) rotateY(${y}deg) ..`]: when an
    angle is not a finite number the text reads [NaNdeg] or [Infinitydeg],
    which is no transform; the browser drops the declaration and the style
    keeps the value it had. *)
Definition assign_transform (t : css_transform) (e : element) : element :=
  if Num.is_finite (rotateX t) && Num.is_finite (rotateY t)
  then set_transform t e
  else e.

(** [e.addEventListener(type, h)] *)
Definition addEventListener (type : string) (h : handler) (e : element) : element :=
  {| id := id e; classList := classList e; rect := rect e;
     transform := transform e; listeners := listeners e ++ [(type, h)] |}.

(** [DOMTokenList]: an ordered set of class names. *)
Module DOMTokenList.

Definition contains (c : string) (cs : list string) : bool :=
  bool_decide (c ∈ cs).

Definition add (c : string) (cs : list string) : list string :=
  if contains c cs then cs else cs ++ [c].

Definition remove (c : string) (cs : list string) : list string :=
  filter (fun x => x ≠ c) cs.

Definition toggle (c : string) (cs : list string) : list string :=
  if contains c cs then remove c cs else add c cs.

End DOMTokenList.

(** Selectors.  The script only selects by id or by a list of class names. *)
Definition matches (classes : list string) (e : element) : bool :=
  existsb (fun c => DOMTokenList.contains c (classList e)) classes.

Fixpoint find_from (test : element -> bool) (i : nat) (es : list element) : list nat :=
  match es with
  | [] => []
  | e :: es' => (if test e then [i] else []) ++ find_from test (S i) es'
  end.

Definition querySelectorAll (classes : list string) (p : page) : list nat :=
  find_from (matches classes) 0 (elements p).

Definition querySelector (class : string) (p : page) : option nat :=
  head (querySelectorAll [class] p).

Definition getElementById (name : string) (p : page) : option nat :=
  head (find_from (fun e => String.eqb (id e) name) 0 (elements p)).

(** Apply [f] to the element at position [i]. *)
Definition on_element (i : nat) (f : element -> element) (p : page) : page :=
  set_elements (alter f i) p.

(** [nodes.forEach(n => f n)] for an [f] that cannot throw. *)
Definition forEach (nodes : list nat) (f : nat -> page -> page) (p : page) : page :=
  foldl (fun q n => f n q) p nodes.

Definition classes_of (i : nat) (p : page) : list string :=
  from_option classList [] (elements p !! i).

(** ** Theme toggle *)

Definition THEME_STORAGE_KEY : string := "portfolio-theme".

(** [htmlElement.hasAttribute(name)] *)
Definition hasAttribute (name : string) (p : page) : bool :=
  bool_decide (is_Some (root_attributes p !! name)).

Definition applyTheme (theme : string) (p : page) : page :=
  if String.eqb theme "light"
  then console_log "Applied Light Theme"
         (set_root_attributes (insert "data-theme" "light") p)
  else console_log "Applied Dark Theme"
         (set_root_attributes (delete "data-theme") p).

(** Truthiness of a string: only the empty string is falsy. *)
Definition truthy (s : string) : bool :=
  match s with
  | EmptyString => false
  | String _ _ => true
  end.

(** [localStorage.getItem] gives [null] for a missing key; [null] is falsy. *)
Definition initTheme (p : page) : page :=
  match localStorage p !! THEME_STORAGE_KEY with
  | Some savedTheme => if truthy savedTheme then applyTheme savedTheme p else p
  | None => p
  end.

(** The click listener of the theme toggle. *)
Definition themeToggleClick (p : page) : page :=
  let isLight := hasAttribute "data-theme" p in
  let newTheme := if isLight then "dark" else "light" in
  set_localStorage (insert THEME_STORAGE_KEY newTheme) (applyTheme newTheme p).

(** ** Mobile navigation *)

Definition mobileMenuClick (navMenu : option nat) (p : page) : outcome :=
  match navMenu with
  | None => TypeError p
  | Some nav =>
      Done (console_log "Mobile menu toggled"
              (on_element nav (set_classList (DOMTokenList.toggle "active")) p))
  end.

Definition navLinkClick (navMenu : option nat) (p : page) : outcome :=
  match navMenu with
  | None => TypeError p
  | Some nav =>
      if DOMTokenList.contains "active" (classes_of nav p)
      then Done (on_element nav (set_classList (DOMTokenList.remove "active")) p)
      else Done p
  end.

(** ** Typing effect *)

(** [s.substring(0, e)]: a negative end counts as 0, an end past the string
    as its length. *)
Definition substring0 (s : string) (e : Z) : string :=
  String.substring 0 (Z.to_nat e) s.

Definition strlen (s : string) : Z := Z.of_nat (String.length s).

(** One call of [typeEffect] on the variables of the script, for a given
    array [roles].  [None] is the [TypeError] of [currentRole.substring]
    when [roles[roleIndex]] is [undefined].  The delay given to
    [setTimeout] is the [typeSpeed] of the result. *)
Definition typeEffect (roles : list string) (s : typing_state) : option typing_state :=
  match roles !! roleIndex s with
  | None => None
  | Some currentRole =>
      let s1 :=
        if isDeleting s
        then {| textContent := substring0 currentRole (charIndex s - 1);
                roleIndex := roleIndex s;
                charIndex := charIndex s - 1;
                isDeleting := isDeleting s;
                typeSpeed := 50 |}
        else {| textContent := substring0 currentRole (charIndex s + 1);
                roleIndex := roleIndex s;
                charIndex := charIndex s + 1;
                isDeleting := isDeleting s;
                typeSpeed := 100 |} in
      if negb (isDeleting s1) && (charIndex s1 =? strlen currentRole)%Z
      then Some {| textContent := textContent s1;
                   roleIndex := roleIndex s1;
                   charIndex := charIndex s1;
                   isDeleting := true;
                   typeSpeed := 2000 |}
      else if isDeleting s1 && (charIndex s1 =? 0)%Z
      then Some {| textContent := textContent s1;
                   roleIndex := (roleIndex s1 + 1) mod (length roles);
                   charIndex := charIndex s1;
                   isDeleting := false;
                   typeSpeed := 500 |}
      else Some s1
  end.

Definition roles : list string := ["Lakdaram Sridhar Yadav"; "Frontend Developer"].

(** The variables as the script declares them; the text of the element is
    what the markup put there. *)
Definition initial_typing (text : string) : typing_state :=
  {| textContent := text; roleIndex := 0; charIndex := 0;
     isDeleting := false; typeSpeed := 100 |}.

(** [typeEffect()] on the page, for a given array [roles]: writes the
    variables and the text of [typingElement], then schedules the next call
    with [setTimeout(typeEffect, typeSpeed)]. *)
Definition typeEffect_on (roles : list string) (typingElement : option nat)
    (p : page) : outcome :=
  match typeEffect roles (typing p), typingElement with
  | Some t, Some _ => Done (setTimeout (typeSpeed t) (set_typing t p))
  | _, _ => TypeError p
  end.

(** [n] calls of [typeEffect] in a row, as the timer makes them. *)
Fixpoint ticks (roles : list string) (n : nat) (s : typing_state) : option typing_state :=
  match n with
  | O => Some s
  | S n' =>
      match typeEffect roles s with
      | Some s' => ticks roles n' s'
      | None => None
      end
  end.

(** ** Scroll reveal *)

Definition revealSelector : list string :=
  ["section-title"; "about-content"; "skill-card"; "hero-text"; "hero-visual"].

(** What the callback reads of an entry.  The browser sets [isIntersecting]
    from the options of the observer (viewport as root, threshold 0.15, no
    margin); the script only looks at the flag. *)
Record IntersectionObserverEntry := { target : nat; isIntersecting : bool }.

(** [observer.unobserve(t)] and [observer.observe(t)] *)
Definition unobserve (t : nat) (p : page) : page :=
  set_observed (fun s => s ∖ {[t]}) p.

Definition observe (t : nat) (p : page) : page :=
  set_observed (fun s => {[t]} ∪ s) p.

(** The callback of [revealObserver]. *)
Definition revealCallback (entries : list IntersectionObserverEntry) (p : page) : page :=
  foldl (fun q entry =>
           if isIntersecting entry
           then unobserve (target entry)
                  (on_element (target entry)
                     (set_classList (DOMTokenList.add "active")) q)
           else q)
        p entries.

(** The browser reports a change of intersection only for the targets the
    observer has at that time. *)
Definition notify (entries : list IntersectionObserverEntry) (p : page) : page :=
  revealCallback (filter (fun entry => target entry ∈ observed p) entries) p.

(** ** 3D tilt *)

Record MouseEvent := { clientX : Q; clientY : Q }.

Definition tilt_of (r : DOMRect) (e : MouseEvent) : css_transform :=
  let x := Num.sub (Num.Finite (clientX e)) (Num.Finite (rect_left r)) in
  let y := Num.sub (Num.Finite (clientY e)) (Num.Finite (rect_top r)) in
  let xCenter := Num.div (Num.Finite (rect_width r)) (Num.Finite 2) in
  let yCenter := Num.div (Num.Finite (rect_height r)) (Num.Finite 2) in
  let rotateX := Num.mul (Num.div (Num.sub y yCenter) yCenter) (Num.Finite (-10)) in
  let rotateY := Num.mul (Num.div (Num.sub x xCenter) xCenter) (Num.Finite 10) in
  {| perspective := 1000; rotateX := rotateX; rotateY := rotateY;
     scale := 105 # 100 |}.

(** The [mousemove] listener of a card.  [bounds] is what
    [card.getBoundingClientRect()] returns when the listener runs. *)
Definition tiltMouseMove (card : nat) (bounds : DOMRect) (e : MouseEvent)
    (p : page) : page :=
  on_element card (assign_transform (tilt_of bounds e)) p.

(** The [mouseleave] listener of a card. *)
Definition tiltMouseLeave (card : nat) (p : page) : page :=
  on_element card
    (set_transform {| perspective := 1000; rotateX := Num.Finite 0;
                      rotateY := Num.Finite 0; scale := 1 |}) p.

(** ** Start-up *)

(** [target.addEventListener(type, h)] where [target] may be [null]. *)
Definition listen (target : option nat) (type : string) (h : handler) (p : page) : outcome :=
  match target with
  | None => TypeError p
  | Some t => Done (on_element t (addEventListener type h) p)
  end.

(** The body of the [DOMContentLoaded] listener, one definition for each
    section of the script, in the order of the script. *)
Definition themeToggleLogic (p : page) : outcome :=
  let themeToggleBtn := getElementById "theme-toggle" p in
  let p := initTheme p in
  listen themeToggleBtn "click" ThemeToggleClick p.

Definition mobileNavigationLogic (p : page) : outcome :=
  let mobileMenuBtn := querySelector "mobile-menu-btn" p in
  let navMenu := querySelector "main-nav" p in
  run p <- listen mobileMenuBtn "click" (MobileMenuClick navMenu) p;
  let navLinks := querySelectorAll ["nav-link"] p in
  Done (forEach navLinks
          (fun link => on_element link (addEventListener "click" (NavLinkClick navMenu))) p).

Definition typingEffectLogic (p : page) : outcome :=
  let typingElement := querySelector "typing-text" p in
  let p := set_typing (initial_typing (textContent (typing p))) p in
  match typingElement with
  | Some _ => typeEffect_on roles typingElement p
  | None => Done p
  end.

Definition scrollRevealLogic (p : page) : page :=
  let revealElements := querySelectorAll revealSelector p in
  let p := forEach revealElements
             (fun el => on_element el (set_classList (DOMTokenList.add "reveal"))) p in
  forEach revealElements observe p.

Definition tiltEffectLogic (p : page) : page :=
  let tiltCards := querySelectorAll ["skill-card"; "visual-glass-card"] p in
  forEach tiltCards
    (fun card =>
       on_element card
         (fun c =>
            addEventListener "mouseleave" (TiltMouseLeave card)
              (addEventListener "mousemove" (TiltMouseMove card)
                 (set_classList (DOMTokenList.add "tilt-card") c)))) p.

Definition DOMContentLoaded (p : page) : outcome :=
  run p <- themeToggleLogic p;
  run p <- mobileNavigationLogic p;
  run p <- typingEffectLogic p;
  Done (tiltEffectLogic (scrollRevealLogic p)).

(** What the browser hands to a listener: the event, and its answer to
    [getBoundingClientRect()] for each element while the listener runs. *)
Record delivery := {
  mouse : MouseEvent;
  boundingClientRect : nat -> DOMRect }.

(** An event reaches a listener. *)
Definition dispatch (h : handler) (e : delivery) (p : page) : outcome :=
  match h with
  | ThemeToggleClick => Done (themeToggleClick p)
  | MobileMenuClick navMenu => mobileMenuClick navMenu p
  | NavLinkClick navMenu => navLinkClick navMenu p
  | TiltMouseMove card =>
      Done (tiltMouseMove card (boundingClientRect e card) (mouse e) p)
  | TiltMouseLeave card => Done (tiltMouseLeave card p)
  end.

(** ** Vocabulary of the properties *)

(** The states the animator can be in for an array [roles]: the one the
    script starts from, and those a call of [typeEffect] leads to. *)
Inductive reachable (roles : list string) : typing_state -> Prop :=
| reachable_start text : reachable roles (initial_typing text)
| reachable_tick s s' :
    reachable roles s -> typeEffect roles s = Some s' -> reachable roles s'.

(** While typing the word is not complete yet; while deleting it is not
    empty yet. *)
Definition typing_inv (roles : list string) (s : typing_state) : Prop :=
  exists role,
    roles !! roleIndex s = Some role /\
    if isDeleting s
    then (0 < charIndex s <= strlen role)%Z
    else (0 <= charIndex s < strlen role)%Z.

(** The theme the page shows: Light when the root carries the
    [data-theme] attribute, Dark (the default of the style sheet) when not. *)
Inductive mode := Light | Dark.

Definition mode_of (p : page) : mode :=
  if hasAttribute "data-theme" p then Light else Dark.

(** What is stored for the theme, if anything. *)
Definition persisted (p : page) : option string :=
  localStorage p !! THEME_STORAGE_KEY.

(** The page a run ends in, completed or not. *)
Definition page_of (o : outcome) : page :=
  match o with
  | Done p => p
  | TypeError p => p
  end.

(** *** A small page to run the script on *)

Definition node (name : string) (classes : list string) (r : DOMRect) : element :=
  {| id := name; classList := classes; rect := r; transform := None; listeners := [] |}.

Definition box (l t w h : Q) : DOMRect :=
  {| rect_left := l; rect_top := t; rect_width := w; rect_height := h |}.

(** The elements the script looks for, in the order of the markup: toggle,
    menu button, navigation with two links, hero with the typing text and
    the glass card, a section title and two skill cards. *)
Definition sample_elements : list element :=
  [ node "theme-toggle" ["theme-btn"] (box 900 10 40 40);
    node "" ["mobile-menu-btn"] (box 950 10 40 40);
    node "" ["main-nav"] (box 300 10 500 40);
    node "" ["nav-link"] (box 300 10 80 40);
    node "" ["nav-link"] (box 400 10 80 40);
    node "" ["hero-text"] (box 0 100 500 400);
    node "" ["typing-text"] (box 0 200 300 40);
    node "" ["hero-visual"] (box 500 100 500 400);
    node "" ["visual-glass-card"] (box 550 150 400 300);
    node "skills" ["section-title"] (box 0 600 1000 60);
    node "" ["skill-card"] (box 0 700 200 100);
    node "" ["skill-card"; "featured"] (box 250 700 300 150) ].

Definition page_with (es : list element) (root storage : gmap string string) : page :=
  {| elements := es; root_attributes := root; localStorage := storage;
     console := []; typing := initial_typing ""; timers := []; observed := ∅ |}.

(** The sample page as a fresh load finds it, with a given stored theme. *)
Definition sample_page (stored : option string) : page :=
  page_with sample_elements {[ "lang" := "en" ]}
    (match stored with
     | Some v => {[ THEME_STORAGE_KEY := v ]}
     | None => ∅
     end).

(** The sample page with the element at position [i] taken out of the
    markup. *)
Definition sample_page_without (i : nat) : page :=
  page_with (delete i sample_elements) {[ "lang" := "en" ]} ∅.

(** The pointer at the centre and at the top-left corner of a rectangle. *)
Definition at_centre (r : DOMRect) : MouseEvent :=
  {| clientX := rect_left r + rect_width r / 2;
     clientY := rect_top r + rect_height r / 2 |}.

Definition at_top_left (r : DOMRect) : MouseEvent :=
  {| clientX := rect_left r; clientY := rect_top r |}.

(** [style.transform] of the element at position [i], if it was ever set. *)
Definition transform_of (i : nat) (p : page) : option css_transform :=
  elements p !! i ≫= transform.

(** Some entry of the batch reports element [j] as intersecting. *)
Definition intersects (j : nat) (entries : list IntersectionObserverEntry) : bool :=
  existsb (fun entry => isIntersecting entry && Nat.eqb (target entry) j) entries.

(** A sequence of notifications, one batch of entries after the other. *)
Definition notifications (batches : list (list IntersectionObserverEntry)) (p : page) : page :=
  foldl (fun q batch => notify batch q) p batches.

(** The other mode, and the string the script stores for a mode. *)
Definition other_mode (m : mode) : mode :=
  match m with Light => Dark | Dark => Light end.

Definition theme_name (m : mode) : string :=
  match m with Light => "light" | Dark => "dark" end.

(** [n] clicks on the theme toggle. *)
Definition clicks (n : nat) (p : page) : page := Nat.iter n themeToggleClick p.

(** [e'] is [e] with, possibly, more classes and more listeners after the
    ones it had. *)
Definition extends (e e' : element) : Prop :=
  id e' = id e /\ rect e' = rect e /\ transform e' = transform e /\
  classList e `prefix_of` classList e' /\
  listeners e `prefix_of` listeners e'.

(** The same elements, each one extended. *)
Definition grows (p q : page) : Prop := Forall2 extends (elements p) (elements q).

(** The sum of the delays given to [setTimeout] by [n] calls of
    [typeEffect] in a row. *)
Fixpoint total_delay (roles : list string) (n : nat) (s : typing_state) : Z :=
  match n with
  | O => 0
  | S n' =>
      match typeEffect roles s with
      | Some s' => typeSpeed s' + total_delay roles n' s'
      | None => 0
      end
  end.

(** * Properties *)

(** ** Typing effect *)

Lemma typeEffect_defined (roles : list string) (s : typing_state) :
  is_Some (roles !! roleIndex s) -> is_Some (typeEffect roles s).
Proof.
  intros [role Hrole]. unfold typeEffect. rewrite Hrole.
  destruct (_ && _); [eauto|]. destruct (_ && _); eauto.
Qed.

(** On the page, the call writes the new variables and text, and the delay
    of the timer it sets is the new [typeSpeed]. *)
Lemma typeEffect_on_schedules (el : nat) (p : page) (t : typing_state) :
  typeEffect roles (typing p) = Some t ->
  exists q, typeEffect_on roles (Some el) p = Done q /\
            typing q = t /\ timers q = timers p ++ [typeSpeed t].
Proof.
  intros Ht. unfold typeEffect_on. rewrite Ht. eexists. repeat split.
Qed.

Section TypingEffect.

Variable roles : list string.

Lemma strlen_pos (role : string) : role <> "" -> (0 < strlen role)%Z.
Proof. destruct role; [congruence | unfold strlen; simpl; lia]. Qed.

Hypothesis roles_nonempty : Forall (fun role => role <> "") roles.

Lemma lookup_role_pos i role : roles !! i = Some role -> (0 < strlen role)%Z.
Proof.
  intros Hi. apply strlen_pos.
  exact (proj1 (Forall_lookup _ _) roles_nonempty i role Hi).
Qed.

Lemma typing_inv_start text : roles <> [] -> typing_inv roles (initial_typing text).
Proof.
  intros Hne.
  assert (Hlen : 0 < length roles) by (destruct roles; [congruence | simpl; lia]).
  destruct (lookup_lt_is_Some_2 _ _ Hlen) as [role Hrole].
  exists role. split; [exact Hrole|]. simpl.
  apply lookup_role_pos in Hrole. lia.
Qed.

Lemma typing_inv_tick s s' :
  typing_inv roles s -> typeEffect roles s = Some s' -> typing_inv roles s'.
Proof.
  intros (role & Hrole & Hc) Hstep. unfold typeEffect in Hstep.
  rewrite Hrole in Hstep.
  destruct (isDeleting s) eqn:Hd; simpl in Hstep.
  - destruct (charIndex s - 1 =? 0)%Z eqn:Hz; inversion Hstep; subst; clear Hstep.
    + assert (Hlt : (roleIndex s + 1) mod length roles < length roles).
      { apply Nat.mod_upper_bound. apply lookup_lt_Some in Hrole. lia. }
      destruct (lookup_lt_is_Some_2 _ _ Hlt) as [next Hnext].
      exists next. simpl. split; [exact Hnext|].
      apply lookup_role_pos in Hnext. lia.
    + exists role. simpl. split; [exact Hrole | lia].
  - destruct (charIndex s + 1 =? strlen role)%Z eqn:Hz; inversion Hstep; subst; clear Hstep.
    + exists role. simpl. split; [exact Hrole | lia].
    + exists role. simpl. split; [exact Hrole | lia].
Qed.

Lemma reachable_inv s : roles <> [] -> reachable roles s -> typing_inv roles s.
Proof.
  intros Hne Hr. induction Hr as [text | s s' _ IH Hstep].
  - now apply typing_inv_start.
  - exact (typing_inv_tick s s' IH Hstep).
Qed.

End TypingEffect.

(** What one call of [typeEffect] does to the phase and to the index, for
    any values of the variables. *)
Lemma typeEffect_phase (roles : list string) (s s' : typing_state) :
  typeEffect roles s = Some s' ->
  (isDeleting s' <> isDeleting s ->
     (isDeleting s = false /\ isDeleting s' = true /\ roleIndex s' = roleIndex s /\
      exists role, roles !! roleIndex s = Some role /\ charIndex s' = strlen role)
     \/
     (isDeleting s = true /\ isDeleting s' = false /\ charIndex s' = 0%Z /\
      roleIndex s' = (roleIndex s + 1) mod length roles)) /\
  (isDeleting s' = isDeleting s -> roleIndex s' = roleIndex s).
Proof.
  unfold typeEffect. destruct (roles !! roleIndex s) as [role|] eqn:Hrole; [|discriminate].
  destruct (isDeleting s) eqn:Hd; simpl.
  - destruct (charIndex s - 1 =? 0)%Z eqn:Hz; intros [= <-]; simpl.
    + split; [intros _; right; repeat split; lia | discriminate].
    + split; [congruence | reflexivity].
  - destruct (charIndex s + 1 =? strlen role)%Z eqn:Hz; intros [= <-]; simpl.
    + split; [intros _; left; repeat split; exists role; split; [reflexivity | lia]
             | discriminate].
    + split; [congruence | reflexivity].
Qed.

(** C3: with the roles "AB" and "CD", from index 0, cursor 0 and the typing
    phase, two calls show "AB" and switch to deleting; two more calls show
    the empty text, switch back to typing and move to index 1. *)
Theorem typing_AB_CD_four_ticks (text : string) (speed : Z) :
  let start := {| textContent := text; roleIndex := 0; charIndex := 0;
                  isDeleting := false; typeSpeed := speed |} in
  exists s2 s4,
    ticks ["AB"; "CD"] 2 start = Some s2 /\
    textContent s2 = "AB" /\ isDeleting s2 = true /\
    ticks ["AB"; "CD"] 2 s2 = Some s4 /\
    textContent s4 = "" /\ isDeleting s4 = false /\ roleIndex s4 = 1.
Proof.
  simpl. eexists. eexists.
  split; [reflexivity|]. split; [reflexivity|]. split; [reflexivity|].
  split; [reflexivity|]. repeat split.
Qed.

(** C4: the delay a call of [typeEffect] schedules the next call with (the
    one delay it adds to the pending timers) is 100 when it typed a
    character and the word is not complete, 50 when it deleted a character
    and the word is not empty, 2000 when it completed the word (and
    switched to deleting), 500 when it emptied the word (and switched to
    typing, moving to the next index).  This holds for any array of roles
    and any values of the variables, as long as the index names a role. *)
Theorem typeEffect_delay (roles : list string) (el : nat) (p : page) (role : string) :
  roles !! roleIndex (typing p) = Some role ->
  let s := typing p in
  exists q delay,
    typeEffect_on roles (Some el) p = Done q /\
    typeEffect roles s = Some (typing q) /\
    timers q = timers p ++ [delay] /\
    typeSpeed (typing q) = delay /\
    (isDeleting s = false -> charIndex s + 1 <> strlen role ->
       delay = 100 /\ charIndex (typing q) = charIndex s + 1 /\
       isDeleting (typing q) = false)%Z /\
    (isDeleting s = true -> charIndex s - 1 <> 0 ->
       delay = 50 /\ charIndex (typing q) = charIndex s - 1 /\
       isDeleting (typing q) = true)%Z /\
    (isDeleting s = false -> charIndex s + 1 = strlen role ->
       delay = 2000 /\ isDeleting (typing q) = true)%Z /\
    (isDeleting s = true -> (charIndex s - 1 = 0)%Z ->
       delay = 500%Z /\ isDeleting (typing q) = false /\
       roleIndex (typing q) = (roleIndex s + 1) mod length roles).
Proof.
  intros Hrole s. subst s.
  destruct (typeEffect_defined roles (typing p) (ex_intro _ role Hrole)) as [t Ht].
  exists (setTimeout (typeSpeed t) (set_typing t p)), (typeSpeed t).
  split; [unfold typeEffect_on; now rewrite Ht|].
  split; [exact Ht|]. split; [reflexivity|]. split; [reflexivity|].
  cbn [typing setTimeout set_typing].
  unfold typeEffect in Ht. rewrite Hrole in Ht.
  destruct (isDeleting (typing p)) eqn:Hd; simpl in Ht.
  - destruct (charIndex (typing p) - 1 =? 0)%Z eqn:Hz; injection Ht as <-; simpl;
      repeat split; try discriminate; try lia.
  - destruct (charIndex (typing p) + 1 =? strlen role)%Z eqn:Hz; injection Ht as <-; simpl;
      repeat split; try discriminate; try lia.
Qed.

Lemma typeEffect_delay_witness :
  let p := sample_page None in
  let s := typing p in
  let role := "Lakdaram Sridhar Yadav" in
  exists q delay,
    typeEffect_on roles (Some 6) p = Done q /\
    typeEffect roles s = Some (typing q) /\
    timers q = timers p ++ [delay] /\
    typeSpeed (typing q) = delay /\
    (isDeleting s = false -> charIndex s + 1 <> strlen role ->
       delay = 100 /\ charIndex (typing q) = charIndex s + 1 /\
       isDeleting (typing q) = false)%Z /\
    (isDeleting s = true -> charIndex s - 1 <> 0 ->
       delay = 50 /\ charIndex (typing q) = charIndex s - 1 /\
       isDeleting (typing q) = true)%Z /\
    (isDeleting s = false -> charIndex s + 1 = strlen role ->
       delay = 2000 /\ isDeleting (typing q) = true)%Z /\
    (isDeleting s = true -> (charIndex s - 1 = 0)%Z ->
       delay = 500%Z /\ isDeleting (typing q) = false /\
       roleIndex (typing q) = (roleIndex s + 1) mod length roles).
Proof.
  apply (typeEffect_delay roles 6 (sample_page None) "Lakdaram Sridhar Yadav").
  reflexivity.
Defined.

(** C8: for roles that are all non-empty, in every reachable state the
    cursor lies between 0 and the length of the current role, the index
    names a role (so the next call does not throw) as soon as there is one,
    and a call changes the phase only in two ways: from typing to deleting
    with the cursor at the length of the role, or from deleting to typing
    with the cursor at 0 and the index moved on cyclically.  The index does
    not move otherwise. *)
Theorem typing_cursor_invariant (roles : list string) (s : typing_state) :
  Forall (fun role => role <> "") roles ->
  reachable roles s ->
  (forall role, roles !! roleIndex s = Some role ->
     (0 <= charIndex s <= strlen role)%Z) /\
  (roles <> [] -> is_Some (roles !! roleIndex s) /\ is_Some (typeEffect roles s)) /\
  (forall s', typeEffect roles s = Some s' ->
     (isDeleting s' <> isDeleting s ->
        (isDeleting s = false /\ isDeleting s' = true /\ roleIndex s' = roleIndex s /\
         exists role, roles !! roleIndex s = Some role /\ charIndex s' = strlen role)
        \/
        (isDeleting s = true /\ isDeleting s' = false /\ charIndex s' = 0%Z /\
         roleIndex s' = (roleIndex s + 1) mod length roles)) /\
     (isDeleting s' = isDeleting s -> roleIndex s' = roleIndex s)).
Proof.
  intros Hne Hr. split; [|split].
  - intros role Hrole. destruct roles as [|r0 rest] eqn:E; [discriminate|].
    assert (Hinv : typing_inv (r0 :: rest) s)
      by (apply reachable_inv; [exact Hne | discriminate | exact Hr]).
    destruct Hinv as (role' & Hrole' & Hc). rewrite Hrole in Hrole'.
    injection Hrole' as <-. destruct (isDeleting s); lia.
  - intros Hroles. destruct (reachable_inv roles Hne s Hroles Hr) as (role & Hrole & _).
    split; [eauto | apply typeEffect_defined; eauto].
  - intros s'. apply typeEffect_phase.
Qed.

Lemma typing_cursor_invariant_witness :
  let s := {| textContent := "L"; roleIndex := 0; charIndex := 1;
              isDeleting := false; typeSpeed := 100 |} in
  (forall role, roles !! roleIndex s = Some role ->
     (0 <= charIndex s <= strlen role)%Z) /\
  (roles <> [] -> is_Some (roles !! roleIndex s) /\ is_Some (typeEffect roles s)) /\
  (forall s', typeEffect roles s = Some s' ->
     (isDeleting s' <> isDeleting s ->
        (isDeleting s = false /\ isDeleting s' = true /\ roleIndex s' = roleIndex s /\
         exists role, roles !! roleIndex s = Some role /\ charIndex s' = strlen role)
        \/
        (isDeleting s = true /\ isDeleting s' = false /\ charIndex s' = 0%Z /\
         roleIndex s' = (roleIndex s + 1) mod length roles)) /\
     (isDeleting s' = isDeleting s -> roleIndex s' = roleIndex s)).
Proof.
  apply (typing_cursor_invariant roles).
  - repeat constructor; discriminate.
  - apply (reachable_tick roles (initial_typing "")); [constructor | reflexivity].
Defined.

(** ** Theme *)

Lemma hasAttribute_applyTheme (theme : string) (p : page) :
  hasAttribute "data-theme" (applyTheme theme p) = String.eqb theme "light".
Proof.
  unfold applyTheme, hasAttribute. destruct (String.eqb theme "light"); simpl.
  - apply bool_decide_eq_true. rewrite lookup_insert_eq. eauto.
  - apply bool_decide_eq_false. rewrite lookup_delete_eq. intros [? ?]; discriminate.
Qed.

Lemma localStorage_applyTheme (theme : string) (p : page) :
  localStorage (applyTheme theme p) = localStorage p.
Proof. unfold applyTheme. destruct (String.eqb theme "light"); reflexivity. Qed.

Lemma persisted_themeToggleClick (p : page) :
  persisted (themeToggleClick p)
  = Some (if hasAttribute "data-theme" p then "dark" else "light").
Proof. unfold persisted, themeToggleClick. simpl. apply lookup_insert_eq. Qed.

Lemma mode_of_themeToggleClick (p : page) :
  mode_of (themeToggleClick p) =
  match mode_of p with Light => Dark | Dark => Light end.
Proof.
  unfold mode_of, themeToggleClick.
  change (hasAttribute "data-theme" (set_localStorage ?f ?q))
    with (hasAttribute "data-theme" q).
  rewrite hasAttribute_applyTheme.
  destruct (hasAttribute "data-theme" p); reflexivity.
Qed.

(** C6: a click on the theme toggle gives the opposite mode and stores its
    name, from any page; so from Dark one click gives Light with "light"
    stored and a second click gives Dark with "dark" stored, and the same
    with the two modes exchanged. *)
Theorem theme_toggle_inverts (p : page) :
  let p1 := themeToggleClick p in
  let p2 := themeToggleClick p1 in
  match mode_of p with
  | Dark => mode_of p1 = Light /\ persisted p1 = Some "light" /\
            mode_of p2 = Dark /\ persisted p2 = Some "dark"
  | Light => mode_of p1 = Dark /\ persisted p1 = Some "dark" /\
             mode_of p2 = Light /\ persisted p2 = Some "light"
  end.
Proof.
  intros p1 p2.
  assert (H1 : mode_of p1 = match mode_of p with Light => Dark | Dark => Light end)
    by apply mode_of_themeToggleClick.
  assert (H2 : mode_of p2 = match mode_of p1 with Light => Dark | Dark => Light end)
    by apply mode_of_themeToggleClick.
  assert (S1 := persisted_themeToggleClick p).
  assert (S2 := persisted_themeToggleClick p1).
  fold p1 in S1. fold p2 in S2.
  unfold mode_of in *.
  destruct (hasAttribute "data-theme" p); destruct (hasAttribute "data-theme" p1);
    try discriminate; rewrite H2, S1, S2; repeat split.
Qed.

(** *** Start-up leaves the root alone after [initTheme] *)

Lemma forEach_frame {A : Type} (proj : page -> A) (nodes : list nat)
    (f : nat -> page -> page) (p : page) :
  (forall n q, proj (f n q) = proj q) -> proj (forEach nodes f p) = proj p.
Proof.
  intros Hf. unfold forEach. revert p.
  induction nodes as [|n nodes IH]; intros p; simpl; [reflexivity|].
  rewrite IH. apply Hf.
Qed.

Lemma find_from_alter (test : element -> bool) (f : element -> element)
    (i k : nat) (es : list element) :
  (forall e, test (f e) = test e) ->
  find_from test k (alter f i es) = find_from test k es.
Proof.
  intros Hf. revert i k. induction es as [|e es IH]; intros i k; [reflexivity|].
  destruct i as [|i].
  - change (alter f 0 (e :: es)) with (f e :: es). simpl. now rewrite Hf.
  - change (alter f (S i) (e :: es)) with (e :: alter f i es). simpl. now rewrite IH.
Qed.

Lemma bind_frame {A : Type} (proj : page -> A) (o : outcome) (k : page -> outcome) :
  (forall q, proj (page_of (k q)) = proj q) ->
  proj (page_of (bind o k)) = proj (page_of o).
Proof. intros Hk. destruct o as [q|q]; simpl; [apply Hk | reflexivity]. Qed.

Lemma listen_frame {A : Type} (proj : page -> A) target type h (p : page) :
  (forall f q, proj (set_elements f q) = proj q) ->
  proj (page_of (listen target type h p)) = proj p.
Proof. intros Hproj. destruct target; simpl; [apply Hproj | reflexivity]. Qed.

Lemma mobileNavigationLogic_root_attributes (p : page) :
  root_attributes (page_of (mobileNavigationLogic p)) = root_attributes p.
Proof.
  unfold mobileNavigationLogic. rewrite (bind_frame root_attributes).
  - now apply listen_frame.
  - intros q. simpl. now apply forEach_frame.
Qed.

Lemma typingEffectLogic_root_attributes (p : page) :
  root_attributes (page_of (typingEffectLogic p)) = root_attributes p.
Proof.
  unfold typingEffectLogic, typeEffect_on.
  destruct (querySelector "typing-text" p); [|reflexivity].
  destruct (typeEffect roles _); reflexivity.
Qed.

Lemma DOMContentLoaded_root_attributes (p : page) :
  root_attributes (page_of (DOMContentLoaded p)) = root_attributes (initTheme p).
Proof.
  unfold DOMContentLoaded.
  rewrite (bind_frame root_attributes).
  - unfold themeToggleLogic. now apply listen_frame.
  - intros q. rewrite (bind_frame root_attributes).
    + apply mobileNavigationLogic_root_attributes.
    + intros q'. rewrite (bind_frame root_attributes).
      * apply typingEffectLogic_root_attributes.
      * intros q''. simpl. unfold tiltEffectLogic, scrollRevealLogic.
        repeat (rewrite (forEach_frame root_attributes); [|reflexivity]).
        reflexivity.
Qed.

(** *** When start-up completes *)

Lemma querySelectorAll_on_element classes i f (p : page) :
  (forall e, classList (f e) = classList e) ->
  querySelectorAll classes (on_element i f p) = querySelectorAll classes p.
Proof.
  intros Hf. unfold querySelectorAll, on_element. simpl.
  apply find_from_alter. intros e. unfold matches. now rewrite Hf.
Qed.

Lemma elements_initTheme (p : page) : elements (initTheme p) = elements p.
Proof.
  unfold initTheme. destruct (localStorage p !! THEME_STORAGE_KEY) as [v|]; [|reflexivity].
  destruct (truthy v); [|reflexivity].
  unfold applyTheme. destruct (String.eqb v "light"); reflexivity.
Qed.

Lemma typingEffectLogic_completes (p : page) : exists q, typingEffectLogic p = Done q.
Proof.
  unfold typingEffectLogic. destruct (querySelector "typing-text" p); eauto.
Qed.

Lemma DOMContentLoaded_completes (p : page) :
  is_Some (getElementById "theme-toggle" p) ->
  is_Some (querySelector "mobile-menu-btn" p) ->
  exists q, DOMContentLoaded p = Done q.
Proof.
  intros [btn Hbtn] [menu Hmenu]. unfold DOMContentLoaded, themeToggleLogic.
  rewrite Hbtn. cbn [listen bind]. unfold mobileNavigationLogic.
  assert (Hq : querySelector "mobile-menu-btn"
                 (on_element btn (addEventListener "click" ThemeToggleClick) (initTheme p))
               = Some menu).
  { unfold querySelector. rewrite querySelectorAll_on_element by reflexivity.
    unfold querySelectorAll. rewrite elements_initTheme. exact Hmenu. }
  rewrite Hq. cbn [listen bind].
  match goal with |- context [typingEffectLogic ?q] =>
    destruct (typingEffectLogic_completes q) as [q' ->] end.
  cbn [bind]. eauto.
Qed.

Lemma DOMContentLoaded_without_toggle (p : page) :
  getElementById "theme-toggle" p = None ->
  DOMContentLoaded p = TypeError (initTheme p).
Proof.
  intros H. unfold DOMContentLoaded, themeToggleLogic. now rewrite H.
Qed.

(** C7: when "light" is what is stored, [initTheme] puts the marker on the
    root, and it is still there when the start-up code has run (to its end
    or to an exception): the page shows Light without any click. *)
Theorem persisted_light_round_trip (p : page) :
  persisted p = Some "light" ->
  root_attributes (initTheme p) !! "data-theme" = Some "light" /\
  mode_of (initTheme p) = Light /\
  mode_of (page_of (DOMContentLoaded p)) = Light.
Proof.
  unfold persisted. intros Hp.
  assert (Hinit : initTheme p = applyTheme "light" p)
    by (unfold initTheme; now rewrite Hp).
  assert (Hmode : mode_of (initTheme p) = Light)
    by (unfold mode_of; now rewrite Hinit, hasAttribute_applyTheme).
  split; [|split].
  - rewrite Hinit. simpl. apply lookup_insert_eq.
  - exact Hmode.
  - unfold mode_of, hasAttribute in *. now rewrite DOMContentLoaded_root_attributes.
Qed.

Lemma persisted_light_round_trip_witness :
  root_attributes (initTheme (sample_page (Some "light"))) !! "data-theme" = Some "light" /\
  mode_of (initTheme (sample_page (Some "light"))) = Light /\
  mode_of (page_of (DOMContentLoaded (sample_page (Some "light")))) = Light.
Proof.
  apply (persisted_light_round_trip (sample_page (Some "light"))).
  vm_compute. reflexivity.
Defined.

(** C9: a stored theme other than "light" (be it "dark" or anything else)
    is applied as Dark: [applyTheme] removes the marker from the root.
    [initTheme] applies the stored value as soon as it is truthy, and then
    the page shows Dark after [initTheme] and after the whole start-up code;
    the start-up code completes whatever is stored, provided the toggle and
    the menu button exist. *)
Theorem stored_theme_other_than_light (p : page) (v : string) :
  v <> "light" ->
  persisted p = Some v ->
  root_attributes (applyTheme v p) !! "data-theme" = None /\
  mode_of (applyTheme v p) = Dark /\
  initTheme p = (if truthy v then applyTheme v p else p) /\
  (truthy v = true ->
     mode_of (initTheme p) = Dark /\
     mode_of (page_of (DOMContentLoaded p)) = Dark) /\
  (is_Some (getElementById "theme-toggle" p) ->
   is_Some (querySelector "mobile-menu-btn" p) ->
   exists q, DOMContentLoaded p = Done q /\ root_attributes q = root_attributes (initTheme p)).
Proof.
  unfold persisted. intros Hv Hp.
  assert (Heq : String.eqb v "light" = false) by now apply String.eqb_neq.
  assert (Hmode : mode_of (applyTheme v p) = Dark)
    by (unfold mode_of; now rewrite hasAttribute_applyTheme, Heq).
  assert (Hinit : initTheme p = (if truthy v then applyTheme v p else p))
    by (unfold initTheme; now rewrite Hp).
  split; [|split; [|split; [|split]]].
  - unfold applyTheme. rewrite Heq. simpl. apply lookup_delete_eq.
  - exact Hmode.
  - exact Hinit.
  - intros Ht. rewrite Ht in Hinit. rewrite Hinit. split; [exact Hmode|].
    unfold mode_of, hasAttribute in *.
    now rewrite DOMContentLoaded_root_attributes, Hinit.
  - intros Hbtn Hmenu. destruct (DOMContentLoaded_completes p Hbtn Hmenu) as [q Hq].
    exists q. split; [exact Hq|].
    rewrite <- DOMContentLoaded_root_attributes, Hq. reflexivity.
Qed.

Lemma stored_theme_other_than_light_witness :
  let p := sample_page (Some "purple") in
  root_attributes (applyTheme "purple" p) !! "data-theme" = None /\
  mode_of (applyTheme "purple" p) = Dark /\
  initTheme p = (if truthy "purple" then applyTheme "purple" p else p) /\
  (truthy "purple" = true ->
     mode_of (initTheme p) = Dark /\
     mode_of (page_of (DOMContentLoaded p)) = Dark) /\
  (is_Some (getElementById "theme-toggle" p) ->
   is_Some (querySelector "mobile-menu-btn" p) ->
   exists q, DOMContentLoaded p = Done q /\ root_attributes q = root_attributes (initTheme p)).
Proof.
  apply (stored_theme_other_than_light (sample_page (Some "purple")) "purple").
  - discriminate.
  - vm_compute. reflexivity.
Defined.

(** ** Scroll reveal *)

Lemma contains_spec (c : string) (cs : list string) :
  DOMTokenList.contains c cs = true <-> c ∈ cs.
Proof. unfold DOMTokenList.contains. apply bool_decide_eq_true. Qed.

Lemma add_present (c : string) (cs : list string) :
  c ∈ cs -> DOMTokenList.add c cs = cs.
Proof.
  intros H. unfold DOMTokenList.add.
  now rewrite (proj2 (contains_spec c cs) H).
Qed.

Lemma elem_of_add (c d : string) (cs : list string) :
  d ∈ DOMTokenList.add c cs <-> d = c \/ d ∈ cs.
Proof.
  unfold DOMTokenList.add. destruct (DOMTokenList.contains c cs) eqn:E.
  - apply contains_spec in E. split; [auto | intros [->|]; auto].
  - rewrite elem_of_app, list_elem_of_singleton. tauto.
Qed.

Lemma add_idempotent (c : string) (cs : list string) :
  DOMTokenList.add c (DOMTokenList.add c cs) = DOMTokenList.add c cs.
Proof. apply add_present, elem_of_add. now left. Qed.

Lemma set_classList_same (f : list string -> list string) (e : element) :
  f (classList e) = classList e -> set_classList f e = e.
Proof. intros H. destruct e. unfold set_classList. simpl in *. now rewrite H. Qed.

(** The callback, seen from one element: it gains the class [active] when
    an entry reports it as intersecting, and is otherwise left as it is. *)
Lemma revealCallback_lookup (entries : list IntersectionObserverEntry) (p : page) (j : nat) :
  elements (revealCallback entries p) !! j
  = (if intersects j entries
     then set_classList (DOMTokenList.add "active")
     else fun e => e) <$> elements p !! j.
Proof.
  unfold revealCallback. revert p.
  induction entries as [|entry entries IH]; intros p; simpl.
  - now destruct (elements p !! j).
  - rewrite IH. destruct (isIntersecting entry) eqn:Hi; simpl; [|reflexivity].
    destruct (Nat.eqb_spec (target entry) j) as [->|Hne].
    + rewrite list_lookup_alter_eq. destruct (elements p !! j) as [e|]; simpl; [|reflexivity].
      destruct (intersects j entries); [|reflexivity].
      f_equal. apply set_classList_same. simpl. apply add_idempotent.
    + now rewrite list_lookup_alter_ne.
Qed.

Lemma revealCallback_observed (entries : list IntersectionObserverEntry) (p : page) (j : nat) :
  j ∈ observed (revealCallback entries p)
  <-> j ∈ observed p /\ intersects j entries = false.
Proof.
  unfold revealCallback. revert p.
  induction entries as [|entry entries IH]; intros p; simpl.
  - tauto.
  - rewrite IH. destruct (isIntersecting entry) eqn:Hi; simpl; [|tauto].
    destruct (Nat.eqb_spec (target entry) j) as [->|Hne]; simpl.
    + rewrite elem_of_difference, elem_of_singleton.
      split; [tauto | intros [_ ?]; discriminate].
    + rewrite elem_of_difference, elem_of_singleton. split.
      * intros [[? _] ?]; tauto.
      * intros [? ?]. repeat split; auto.
Qed.

Lemma intersects_filter (j : nat) (P : IntersectionObserverEntry -> Prop)
    `{forall x, Decision (P x)} (entries : list IntersectionObserverEntry) :
  (forall entry, target entry = j -> P entry) ->
  intersects j (filter P entries) = intersects j entries.
Proof.
  intros HP. induction entries as [|entry entries IH]; [reflexivity|].
  rewrite filter_cons. destruct (decide (P entry)) as [Hp|Hn]; simpl.
  - now rewrite IH.
  - rewrite IH. destruct (Nat.eqb_spec (target entry) j) as [E|_].
    + now destruct Hn; apply HP.
    + now rewrite andb_false_r.
Qed.

(** An element that carries [active] is not touched by a notification, and
    an element that is not observed stays so. *)
Lemma notify_active (batch : list IntersectionObserverEntry) (p : page) (j : nat) :
  "active" ∈ classes_of j p ->
  elements (notify batch p) !! j = elements p !! j.
Proof.
  unfold notify, classes_of. intros Ha. rewrite revealCallback_lookup.
  destruct (elements p !! j) as [e|]; simpl in *; [|reflexivity].
  destruct (intersects j _); [|reflexivity].
  f_equal. apply set_classList_same. now apply add_present.
Qed.

Lemma notify_unobserved (batch : list IntersectionObserverEntry) (p : page) (j : nat) :
  j ∉ observed p -> j ∉ observed (notify batch p).
Proof.
  unfold notify. intros Hn Ho. apply revealCallback_observed in Ho. tauto.
Qed.

Lemma notifications_active (batches : list (list IntersectionObserverEntry))
    (p : page) (j : nat) :
  "active" ∈ classes_of j p ->
  j ∉ observed p ->
  elements (notifications batches p) !! j = elements p !! j /\
  j ∉ observed (notifications batches p).
Proof.
  unfold notifications. revert p.
  induction batches as [|batch batches IH]; intros p Ha Hn; simpl; [auto|].
  assert (Hsame := notify_active batch p j Ha).
  destruct (IH (notify batch p)) as [He Ho].
  - unfold classes_of in *. now rewrite Hsame.
  - now apply notify_unobserved.
  - split; [now rewrite He | exact Ho].
Qed.

(** C5: when a notification reports an observed element as intersecting,
    the element gets the class [active] and leaves the observer; from then
    on no sequence of notifications changes the element in any way, and it
    never comes back under observation. *)
Theorem reveal_happens_once (p : page) (j : nat) (e : element)
    (batch : list IntersectionObserverEntry)
    (later : list (list IntersectionObserverEntry)) :
  elements p !! j = Some e ->
  j ∈ observed p ->
  intersects j batch = true ->
  let p1 := notify batch p in
  let p2 := notifications later p1 in
  "active" ∈ classes_of j p1 /\
  (j ∉ observed p1) /\
  elements p2 !! j = elements p1 !! j /\
  (j ∉ observed p2).
Proof.
  intros He Ho Hi p1 p2.
  assert (Hf : intersects j (filter (fun entry => target entry ∈ observed p) batch) = true).
  { rewrite intersects_filter; [exact Hi | now intros entry ->]. }
  assert (Ha : "active" ∈ classes_of j p1).
  { unfold p1, notify, classes_of. rewrite revealCallback_lookup, He, Hf. simpl.
    apply elem_of_add. now left. }
  assert (Hn : j ∉ observed p1).
  { unfold p1, notify. intros H. apply revealCallback_observed in H.
    destruct H as [_ H]. rewrite Hf in H. discriminate. }
  split; [exact Ha|]. split; [exact Hn|].
  now apply notifications_active.
Qed.

Lemma reveal_happens_once_witness :
  let p := scrollRevealLogic (sample_page None) in
  let p1 := notify [ {| target := 9; isIntersecting := true |} ] p in
  let p2 := notifications
              [ [ {| target := 9; isIntersecting := false |} ];
                [ {| target := 9; isIntersecting := true |};
                  {| target := 10; isIntersecting := true |} ] ] p1 in
  "active" ∈ classes_of 9 p1 /\
  (9 ∉ observed p1) /\
  elements p2 !! 9 = elements p1 !! 9 /\
  (9 ∉ observed p2).
Proof.
  eapply (reveal_happens_once (scrollRevealLogic (sample_page None)) 9).
  - vm_compute. reflexivity.
  - apply (bool_decide_unpack _). vm_compute. exact I.
  - reflexivity.
Defined.

(** *** Registration *)

Lemma elem_of_find_from (test : element -> bool) (k j : nat) (es : list element) :
  j ∈ find_from test k es <->
  k <= j /\ exists e, es !! (j - k) = Some e /\ test e = true.
Proof.
  revert k. induction es as [|e es IH]; intros k; simpl.
  - rewrite elem_of_nil. split; [tauto | intros (_ & e & He & _); discriminate].
  - rewrite elem_of_app, IH. split.
    + intros [Hh | (Hk & e' & He' & Ht)].
      * destruct (test e) eqn:Et; [|now apply elem_of_nil in Hh].
        apply list_elem_of_singleton in Hh. subst j. split; [lia|].
        exists e. now rewrite Nat.sub_diag.
      * split; [lia|]. exists e'. split; [|exact Ht].
        replace (j - k) with (S (j - S k)) by lia. exact He'.
    + intros (Hk & e' & He' & Ht). destruct (decide (j = k)) as [->|Hne].
      * left. rewrite Nat.sub_diag in He'. injection He' as ->. rewrite Ht.
        now apply list_elem_of_singleton.
      * right. split; [lia|]. exists e'. split; [|exact Ht].
        replace (j - k) with (S (j - S k)) in He' by lia. exact He'.
Qed.

Lemma elem_of_querySelectorAll (classes : list string) (p : page) (j : nat) :
  j ∈ querySelectorAll classes p <->
  exists e, elements p !! j = Some e /\ matches classes e = true.
Proof.
  unfold querySelectorAll. rewrite elem_of_find_from, Nat.sub_0_r.
  split; [tauto | intros ?; split; [lia | assumption]].
Qed.

(** [forEach] of a class-list update that is idempotent. *)
Lemma forEach_on_element_lookup (nodes : list nat) (f : element -> element)
    (p : page) (j : nat) :
  (forall e, f (f e) = f e) ->
  elements (forEach nodes (fun n => on_element n f) p) !! j
  = (if bool_decide (j ∈ nodes) then f else fun e => e) <$> elements p !! j.
Proof.
  intros Hf. unfold forEach. revert p.
  induction nodes as [|n nodes IH]; intros p; simpl.
  - now destruct (elements p !! j).
  - rewrite IH. simpl. destruct (decide (n = j)) as [->|Hne].
    + rewrite list_lookup_alter_eq.
      rewrite (bool_decide_eq_true_2 (j ∈ j :: nodes)) by apply list_elem_of_here.
      destruct (elements p !! j) as [e|]; simpl; [|reflexivity].
      destruct (bool_decide (j ∈ nodes)); [now rewrite Hf | reflexivity].
    + rewrite list_lookup_alter_ne by exact Hne.
      assert (Hd : bool_decide (j ∈ n :: nodes) = bool_decide (j ∈ nodes)).
      { apply bool_decide_ext. rewrite elem_of_cons. split; [|tauto].
        intros [->|H]; [congruence | exact H]. }
      now rewrite Hd.
Qed.

Lemma scrollRevealLogic_lookup (p : page) (j : nat) :
  elements (scrollRevealLogic p) !! j
  = (if bool_decide (j ∈ querySelectorAll revealSelector p)
     then set_classList (DOMTokenList.add "reveal")
     else fun e => e) <$> elements p !! j.
Proof.
  unfold scrollRevealLogic.
  rewrite (forEach_frame elements) by reflexivity.
  apply forEach_on_element_lookup.
  intros e. apply set_classList_same. simpl. apply add_idempotent.
Qed.

Lemma prefix_add (c : string) (cs : list string) : cs `prefix_of` DOMTokenList.add c cs.
Proof.
  unfold DOMTokenList.add. destruct (DOMTokenList.contains c cs);
    [reflexivity | now apply prefix_app_r].
Qed.

(** C10: registration gives a reveal element the class [reveal], keeping
    the classes it had; whenever later the callback is told that the
    element intersects, on whatever page the element then carries
    [reveal], the element gets [active] and keeps [reveal]: its class list
    is the old one with [active] added, so it carries both markers and no
    other class came or went. *)
Theorem reveal_keeps_pending_marker (p : page) (j : nat) (e : element)
    (entries : list IntersectionObserverEntry) :
  elements p !! j = Some e ->
  matches revealSelector e = true ->
  intersects j entries = true ->
  classes_of j (scrollRevealLogic p) = DOMTokenList.add "reveal" (classList e) /\
  "reveal" ∈ classes_of j (scrollRevealLogic p) /\
  classList e `prefix_of` classes_of j (scrollRevealLogic p) /\
  forall q : page,
    "reveal" ∈ classes_of j q ->
    let q' := revealCallback entries q in
    classes_of j q' = DOMTokenList.add "active" (classes_of j q) /\
    "reveal" ∈ classes_of j q' /\
    "active" ∈ classes_of j q' /\
    classes_of j q `prefix_of` classes_of j q' /\
    (forall c, c <> "active" -> c ∈ classes_of j q' <-> c ∈ classes_of j q).
Proof.
  intros He Hm Hi.
  assert (Hreg : classes_of j (scrollRevealLogic p)
                 = DOMTokenList.add "reveal" (classList e)).
  { unfold classes_of. rewrite scrollRevealLogic_lookup, He.
    rewrite bool_decide_eq_true_2; [reflexivity|].
    apply elem_of_querySelectorAll. eauto. }
  split; [exact Hreg|]. rewrite Hreg.
  split; [apply elem_of_add; now left|].
  split; [apply prefix_add|].
  intros q Hq q'.
  assert (Hact : classes_of j q' = DOMTokenList.add "active" (classes_of j q)).
  { unfold q', classes_of in *. rewrite revealCallback_lookup, Hi.
    destruct (elements q !! j) as [e'|]; simpl in *; [reflexivity|].
    now apply elem_of_nil in Hq. }
  split; [exact Hact|]. rewrite Hact.
  split; [apply elem_of_add; now right|].
  split; [apply elem_of_add; now left|].
  split; [apply prefix_add|].
  intros c Hc. rewrite elem_of_add. tauto.
Qed.

Lemma reveal_keeps_pending_marker_witness :
  let p := sample_page None in
  let entries := [ {| target := 11; isIntersecting := true |} ] in
  classes_of 11 (scrollRevealLogic p)
  = DOMTokenList.add "reveal" ["skill-card"; "featured"] /\
  "reveal" ∈ classes_of 11 (scrollRevealLogic p) /\
  ["skill-card"; "featured"] `prefix_of` classes_of 11 (scrollRevealLogic p) /\
  forall q : page,
    "reveal" ∈ classes_of 11 q ->
    let q' := revealCallback entries q in
    classes_of 11 q' = DOMTokenList.add "active" (classes_of 11 q) /\
    "reveal" ∈ classes_of 11 q' /\
    "active" ∈ classes_of 11 q' /\
    classes_of 11 q `prefix_of` classes_of 11 q' /\
    (forall c, c <> "active" -> c ∈ classes_of 11 q' <-> c ∈ classes_of 11 q).
Proof.
  apply (reveal_keeps_pending_marker (sample_page None) 11
           (node "" ["skill-card"; "featured"] (box 250 700 300 150))
           [ {| target := 11; isIntersecting := true |} ]);
    reflexivity.
Defined.

(** ** Start-up with a missing element *)

(** C2: the script guards only the typing element.  Without the typing
    text, start-up completes and everything else is set up; without the
    theme toggle, [themeToggleBtn.addEventListener] throws and nothing at
    all is set up; without the menu button, [mobileMenuBtn.addEventListener]
    throws after the theme toggle got its listener, and the typing effect,
    the reveal and the tilt are not set up. *)
Theorem startup_with_missing_element :
  (exists q, DOMContentLoaded (sample_page_without 6) = Done q /\
             timers q = [] /\
             observed q = {[5; 6; 8; 9; 10]} /\
             (listeners <$> elements q !! 0) = Some [("click", ThemeToggleClick)]) /\
  (getElementById "theme-toggle" (sample_page_without 0) = None /\
   DOMContentLoaded (sample_page_without 0) = TypeError (sample_page_without 0)) /\
  (querySelector "mobile-menu-btn" (sample_page_without 1) = None /\
   exists q, DOMContentLoaded (sample_page_without 1) = TypeError q /\
             timers q = [] /\
             observed q = ∅ /\
             Forall (fun e => ("reveal" ∉ classList e) /\ ("tilt-card" ∉ classList e))
                    (elements q)).
Proof.
  split; [|split].
  - eexists. split; [vm_compute; reflexivity|].
    split; [reflexivity|]. split; [|reflexivity].
    apply (bool_decide_unpack _). vm_compute. exact I.
  - split; [reflexivity | vm_compute; reflexivity].
  - split; [reflexivity|]. eexists. split; [vm_compute; reflexivity|].
    split; [reflexivity|]. split; [reflexivity|].
    apply (bool_decide_unpack _). vm_compute. exact I.
Qed.

(** ** 3D tilt *)

Section Tilt.

Local Open Scope Q_scope.

Lemma is_zero_false (q : Q) : ~ q == 0 -> Num.is_zero q = false.
Proof.
  unfold Num.is_zero, Qeq. simpl. intros H. apply Z.eqb_neq. lia.
Qed.

Lemma half_not_zero (q : Q) : 0 < q -> ~ q / 2 == 0.
Proof.
  intros Hq H. assert (E : q == (q / 2) * 2) by (field; discriminate).
  rewrite H in E. rewrite E in Hq. now apply (Qlt_irrefl (0 * 2)).
Qed.

(** For a rectangle with an area both rotations are finite numbers. *)
Lemma tilt_of_finite (r : DOMRect) (e : MouseEvent) :
  0 < rect_width r -> 0 < rect_height r ->
  rotateX (tilt_of r e)
  = Num.Finite ((clientY e - rect_top r - rect_height r / 2) / (rect_height r / 2) * -10) /\
  rotateY (tilt_of r e)
  = Num.Finite ((clientX e - rect_left r - rect_width r / 2) / (rect_width r / 2) * 10).
Proof.
  intros Hw Hh. unfold tilt_of. cbn [rotateX rotateY].
  assert (H2 : Num.div (Num.Finite (rect_height r)) (Num.Finite 2)
               = Num.Finite (rect_height r / 2)) by reflexivity.
  assert (W2 : Num.div (Num.Finite (rect_width r)) (Num.Finite 2)
               = Num.Finite (rect_width r / 2)) by reflexivity.
  rewrite H2, W2. cbn [Num.sub Num.div].
  rewrite (is_zero_false _ (half_not_zero _ Hw)), (is_zero_false _ (half_not_zero _ Hh)).
  split; reflexivity.
Qed.

Lemma transform_of_tiltMouseMove (card : nat) (r : DOMRect) (ev : MouseEvent)
    (p : page) (c : element) :
  elements p !! card = Some c ->
  0 < rect_width r -> 0 < rect_height r ->
  transform_of card (tiltMouseMove card r ev p) = Some (tilt_of r ev).
Proof.
  intros Hc Hw Hh. unfold transform_of, tiltMouseMove, on_element. simpl.
  rewrite list_lookup_alter_eq, Hc. unfold assign_transform.
  destruct (tilt_of_finite r ev Hw Hh) as [-> ->]. reflexivity.
Qed.

(** C1, as the script has it: for a card whose bounding rectangle [r] has
    an area, the pointer at the centre of [r] gives rotateX 0, rotateY 0 and
    scale 1.05; the pointer at the top-left corner of [r] gives rotateX +10
    and rotateY -10, with scale 1.05; leaving the card sets rotateX 0,
    rotateY 0 and scale 1, whatever the rectangle is. *)
Theorem tilt_centre_corner_leave (p : page) (card : nat) (c : element) (r : DOMRect) :
  elements p !! card = Some c ->
  (0 < rect_width r -> 0 < rect_height r ->
   (exists t, transform_of card (tiltMouseMove card r (at_centre r) p) = Some t /\
              rotateX t =n= Num.Finite 0 /\ rotateY t =n= Num.Finite 0 /\
              scale t == 105 # 100) /\
   (exists t, transform_of card (tiltMouseMove card r (at_top_left r) p) = Some t /\
              rotateX t =n= Num.Finite 10 /\ rotateY t =n= Num.Finite (-10) /\
              scale t == 105 # 100)) /\
  (exists t, transform_of card (tiltMouseLeave card p) = Some t /\
             rotateX t = Num.Finite 0 /\ rotateY t = Num.Finite 0 /\ scale t = 1).
Proof.
  intros Hc. split.
  - intros Hw Hh.
    assert (Hw0 : ~ rect_width r == 0)
      by (intros E; rewrite E in Hw; now apply (Qlt_irrefl 0)).
    assert (Hh0 : ~ rect_height r == 0)
      by (intros E; rewrite E in Hh; now apply (Qlt_irrefl 0)).
    split; eexists; (split; [apply (transform_of_tiltMouseMove _ _ _ _ _ Hc Hw Hh)|]);
      destruct (tilt_of_finite r (at_centre r) Hw Hh) as [Xc Yc];
      destruct (tilt_of_finite r (at_top_left r) Hw Hh) as [Xt Yt].
    + rewrite Xc, Yc. unfold at_centre. cbn [Num.same clientX clientY scale tilt_of].
      split; [|split]; [field | field | reflexivity]; assumption.
    + rewrite Xt, Yt. unfold at_top_left. cbn [Num.same clientX clientY scale tilt_of].
      split; [|split]; [field | field | reflexivity]; assumption.
  - eexists. split.
    + unfold transform_of, tiltMouseLeave, on_element. simpl.
      rewrite list_lookup_alter_eq, Hc. reflexivity.
    + split; [|split]; reflexivity.
Qed.

Lemma tilt_centre_corner_leave_witness :
  let p := sample_page None in
  let r := box 0 700 200 100 in
  ((exists t, transform_of 10 (tiltMouseMove 10 r (at_centre r) p) = Some t /\
              rotateX t =n= Num.Finite 0 /\ rotateY t =n= Num.Finite 0 /\
              scale t == 105 # 100) /\
   (exists t, transform_of 10 (tiltMouseMove 10 r (at_top_left r) p) = Some t /\
              rotateX t =n= Num.Finite 10 /\ rotateY t =n= Num.Finite (-10) /\
              scale t == 105 # 100)) /\
  (exists t, transform_of 10 (tiltMouseLeave 10 p) = Some t /\
             rotateX t = Num.Finite 0 /\ rotateY t = Num.Finite 0 /\ scale t = 1).
Proof.
  destruct (tilt_centre_corner_leave (sample_page None) 10
              (node "" ["skill-card"] (box 0 700 200 100)) (box 0 700 200 100) eq_refl)
    as [Hmove Hleave].
  split; [apply Hmove; reflexivity | exact Hleave].
Defined.

(** C1 as it is worded does not hold: on the first skill card of the sample
    page, with the bounding rectangle 200 by 100 at (0, 700), the pointer at
    the top-left corner does not give rotateX -10 together with rotateY -10;
    rotateX is +10 there. *)
Lemma tilt_top_left_rotateX_is_positive :
  let corner := at_top_left (box 0 700 200 100) in
  let p := tiltMouseMove 10 (box 0 700 200 100) corner (sample_page None) in
  (exists t, transform_of 10 p = Some t /\ rotateX t =n= Num.Finite 10) /\
  ~ (exists t, transform_of 10 p = Some t /\
               rotateX t =n= Num.Finite (-10) /\ rotateY t =n= Num.Finite (-10)).
Proof.
  split.
  - eexists. split; [vm_compute; reflexivity | reflexivity].
  - intros (t & Ht & Hx & _). vm_compute in Ht. injection Ht as <-.
    vm_compute in Hx. discriminate.
Qed.

End Tilt.

(** * Further properties *)

(** ** Mobile navigation *)

Lemma elem_of_remove (c d : string) (cs : list string) :
  d ∈ DOMTokenList.remove c cs <-> d <> c /\ d ∈ cs.
Proof. unfold DOMTokenList.remove. rewrite list_elem_of_filter. tauto. Qed.

Lemma remove_absent (c : string) (cs : list string) :
  c ∉ cs -> DOMTokenList.remove c cs = cs.
Proof.
  intros Hc. unfold DOMTokenList.remove.
  induction cs as [|x cs IH]; [reflexivity|].
  rewrite filter_cons. destruct (decide (x <> c)) as [_|Hx].
  - f_equal. apply IH. intros H. apply Hc. now right.
  - destruct Hc. destruct (decide (x = c)) as [->|]; [left | tauto].
Qed.

Lemma elem_of_toggle (c d : string) (cs : list string) :
  d ∈ DOMTokenList.toggle c cs <->
  (c ∈ cs /\ d <> c /\ d ∈ cs) \/ ((c ∉ cs) /\ (d = c \/ d ∈ cs)).
Proof.
  unfold DOMTokenList.toggle. destruct (DOMTokenList.contains c cs) eqn:E.
  - apply contains_spec in E. rewrite elem_of_remove. tauto.
  - assert (c ∉ cs) by (intros H; apply contains_spec in H; congruence).
    rewrite elem_of_add. tauto.
Qed.

Lemma classes_of_on_element (i : nat) (f : list string -> list string) (p : page) :
  is_Some (elements p !! i) ->
  classes_of i (on_element i (set_classList f) p) = f (classes_of i p).
Proof.
  intros [e He]. unfold classes_of, on_element. simpl.
  rewrite list_lookup_alter_eq, He. reflexivity.
Qed.

(** X1: a click on the menu button flips the class [active] of the
    navigation container and nothing else.  The container keeps its id,
    rectangle, transform and listeners, and every class other than
    [active]; every other element stays; root, storage, typing variables,
    timers and observer stay, and the console gets the one line of the
    handler.  A second click brings the container back to the classes it
    had, with the rest of it still as it was. *)
Theorem menu_click_flips_active (p : page) (nav : nat) (e : element) :
  elements p !! nav = Some e ->
  exists q e',
    mobileMenuClick (Some nav) p = Done q /\
    elements q !! nav = Some e' /\
    id e' = id e /\ rect e' = rect e /\ transform e' = transform e /\
    listeners e' = listeners e /\
    classList e' = DOMTokenList.toggle "active" (classList e) /\
    ("active" ∈ classList e' <-> "active" ∉ classList e) /\
    (forall c, c <> "active" -> c ∈ classList e' <-> c ∈ classList e) /\
    (forall j, j <> nav -> elements q !! j = elements p !! j) /\
    length (elements q) = length (elements p) /\
    root_attributes q = root_attributes p /\
    localStorage q = localStorage p /\
    console q = console p ++ ["Mobile menu toggled"] /\
    typing q = typing p /\ timers q = timers p /\ observed q = observed p /\
    exists q2 e2,
      mobileMenuClick (Some nav) q = Done q2 /\
      elements q2 !! nav = Some e2 /\
      id e2 = id e /\ rect e2 = rect e /\ transform e2 = transform e /\
      listeners e2 = listeners e /\
      (forall c, c ∈ classList e2 <-> c ∈ classList e).
Proof.
  intros He.
  exists (console_log "Mobile menu toggled"
            (on_element nav (set_classList (DOMTokenList.toggle "active")) p)),
         (set_classList (DOMTokenList.toggle "active") e).
  split; [reflexivity|].
  assert (Hq : alter (set_classList (DOMTokenList.toggle "active")) nav (elements p) !! nav
               = Some (set_classList (DOMTokenList.toggle "active") e))
    by (now rewrite list_lookup_alter_eq, He).
  split; [exact Hq|]. do 5 (split; [reflexivity|]). cbn [classList set_classList].
  split; [rewrite elem_of_toggle;
          destruct (decide ("active" ∈ classList e)); intuition congruence|].
  split; [intros c Hc; rewrite elem_of_toggle;
          destruct (decide ("active" ∈ classList e)); intuition congruence|].
  split; [intros j Hj; simpl; now rewrite list_lookup_alter_ne|].
  split; [simpl; apply length_alter|].
  do 6 (split; [reflexivity|]).
  exists (console_log "Mobile menu toggled"
            (on_element nav (set_classList (DOMTokenList.toggle "active"))
               (console_log "Mobile menu toggled"
                  (on_element nav (set_classList (DOMTokenList.toggle "active")) p)))),
         (set_classList (DOMTokenList.toggle "active")
            (set_classList (DOMTokenList.toggle "active") e)).
  split; [reflexivity|].
  split; [simpl; now rewrite list_lookup_alter_eq, Hq|].
  do 4 (split; [reflexivity|]).
  intros c. cbn [classList set_classList]. rewrite !elem_of_toggle.
  destruct (decide ("active" ∈ classList e)), (decide (c = "active")); intuition congruence.
Qed.

Lemma menu_click_flips_active_witness :
  let p := sample_page None in
  let e := node "" ["main-nav"] (box 300 10 500 40) in
  exists q e',
    mobileMenuClick (Some 2) p = Done q /\
    elements q !! 2 = Some e' /\
    id e' = id e /\ rect e' = rect e /\ transform e' = transform e /\
    listeners e' = listeners e /\
    classList e' = DOMTokenList.toggle "active" (classList e) /\
    ("active" ∈ classList e' <-> "active" ∉ classList e) /\
    (forall c, c <> "active" -> c ∈ classList e' <-> c ∈ classList e) /\
    (forall j, j <> 2 -> elements q !! j = elements p !! j) /\
    length (elements q) = length (elements p) /\
    root_attributes q = root_attributes p /\
    localStorage q = localStorage p /\
    console q = console p ++ ["Mobile menu toggled"] /\
    typing q = typing p /\ timers q = timers p /\ observed q = observed p /\
    exists q2 e2,
      mobileMenuClick (Some 2) q = Done q2 /\
      elements q2 !! 2 = Some e2 /\
      id e2 = id e /\ rect e2 = rect e /\ transform e2 = transform e /\
      listeners e2 = listeners e /\
      (forall c, c ∈ classList e2 <-> c ∈ classList e).
Proof.
  apply (menu_click_flips_active (sample_page None) 2
           (node "" ["main-nav"] (box 300 10 500 40))).
  reflexivity.
Defined.

(** X2: a click on a navigation link closes the menu: afterwards the
    container does not carry [active], its other classes are kept in their
    order, no other element changes; when the menu is already closed the
    page stays exactly as it is, so a second click changes nothing. *)
Theorem nav_link_click_closes (p : page) (nav : nat) (e : element) :
  elements p !! nav = Some e ->
  exists q,
    navLinkClick (Some nav) p = Done q /\
    classes_of nav q = DOMTokenList.remove "active" (classList e) /\
    ("active" ∉ classes_of nav q) /\
    (forall c, c <> "active" -> c ∈ classes_of nav q <-> c ∈ classList e) /\
    (forall j, j <> nav -> elements q !! j = elements p !! j) /\
    ("active" ∉ classList e -> q = p) /\
    navLinkClick (Some nav) q = Done q.
Proof.
  intros He. unfold navLinkClick.
  assert (Hcls : classes_of nav p = classList e) by (unfold classes_of; now rewrite He).
  rewrite Hcls. destruct (DOMTokenList.contains "active" (classList e)) eqn:E.
  - apply contains_spec in E. eexists. split; [reflexivity|].
    assert (Hq : classes_of nav
                   (on_element nav (set_classList (DOMTokenList.remove "active")) p)
                 = DOMTokenList.remove "active" (classList e)).
    { rewrite classes_of_on_element by eauto. now rewrite Hcls. }
    rewrite Hq. split; [reflexivity|].
    assert (Hno : "active" ∉ DOMTokenList.remove "active" (classList e))
      by (rewrite elem_of_remove; tauto).
    split; [exact Hno|]. split; [|split; [|split]].
    + intros c Hc. rewrite elem_of_remove. tauto.
    + intros j Hj. simpl. now rewrite list_lookup_alter_ne.
    + tauto.
    + assert (Hc : DOMTokenList.contains "active"
                     (DOMTokenList.remove "active" (classList e)) = false).
      { destruct (DOMTokenList.contains _ _) eqn:E'; [|reflexivity].
        apply contains_spec in E'. tauto. }
      now rewrite Hc.
  - assert (Hno : "active" ∉ classList e)
      by (intros H; apply contains_spec in H; congruence).
    exists p. rewrite Hcls, E.
    repeat split; auto; try tauto.
    now rewrite remove_absent.
Qed.

Lemma nav_link_click_closes_witness :
  let p := page_of (mobileMenuClick (Some 2) (sample_page None)) in
  exists q,
    navLinkClick (Some 2) p = Done q /\
    classes_of 2 q = DOMTokenList.remove "active" ["main-nav"; "active"] /\
    ("active" ∉ classes_of 2 q) /\
    (forall c, c <> "active" -> c ∈ classes_of 2 q <-> c ∈ ["main-nav"; "active"]) /\
    (forall j, j <> 2 -> elements q !! j = elements p !! j) /\
    ("active" ∉ ["main-nav"; "active"] -> q = p) /\
    navLinkClick (Some 2) q = Done q.
Proof.
  apply (nav_link_click_closes
           (page_of (mobileMenuClick (Some 2) (sample_page None))) 2
           {| id := ""; classList := ["main-nav"; "active"];
              rect := box 300 10 500 40; transform := None; listeners := [] |}).
  reflexivity.
Defined.

(** *** Registration of listeners over a node list *)

Lemma NoDup_find_from (test : element -> bool) (k : nat) (es : list element) :
  NoDup (find_from test k es).
Proof.
  revert k. induction es as [|e es IH]; intros k; simpl; [constructor|].
  destruct (test e); simpl; [|apply IH].
  constructor; [|apply IH].
  rewrite elem_of_find_from. lia.
Qed.

Lemma forEach_on_elements_lookup (nodes : list nat) (f : nat -> element -> element)
    (p : page) (j : nat) :
  NoDup nodes ->
  elements (forEach nodes (fun n => on_element n (f n)) p) !! j
  = (if bool_decide (j ∈ nodes) then f j else fun e => e) <$> elements p !! j.
Proof.
  intros Hnd. unfold forEach. revert p.
  induction Hnd as [|n nodes Hn Hnd IH]; intros p; simpl.
  - now destruct (elements p !! j).
  - rewrite IH. simpl. destruct (decide (n = j)) as [->|Hne].
    + rewrite list_lookup_alter_eq.
      rewrite (bool_decide_eq_true_2 (j ∈ j :: nodes)) by apply list_elem_of_here.
      rewrite (bool_decide_eq_false_2 (j ∈ nodes)) by exact Hn.
      now destruct (elements p !! j).
    + rewrite list_lookup_alter_ne by exact Hne.
      assert (Hd : bool_decide (j ∈ n :: nodes) = bool_decide (j ∈ nodes)).
      { apply bool_decide_ext. rewrite elem_of_cons. split; [|tauto].
        intros [->|H]; [congruence | exact H]. }
      now rewrite Hd.
Qed.

Lemma querySelector_lookup (class : string) (p : page) (i : nat) :
  querySelector class p = Some i ->
  exists e, elements p !! i = Some e /\ matches [class] e = true.
Proof.
  unfold querySelector. intros H. apply elem_of_querySelectorAll.
  destruct (querySelectorAll [class] p) as [|x l]; [discriminate|].
  injection H as ->. apply list_elem_of_here.
Qed.

(** X3: the navigation section of the start-up needs the menu button only.
    It gives the button a click listener and every navigation link a click
    listener, each holding the navigation container as the page has it.
    When the page has no container the section still completes, and the
    listeners it left throw whenever they are called. *)
Theorem navigation_listeners (p : page) (btn : nat) :
  querySelector "mobile-menu-btn" p = Some btn ->
  let navMenu := querySelector "main-nav" p in
  exists q,
    mobileNavigationLogic p = Done q /\
    (exists e, elements q !! btn = Some e /\
               ("click", MobileMenuClick navMenu) ∈ listeners e) /\
    (forall link, link ∈ querySelectorAll ["nav-link"] p ->
       exists e, elements q !! link = Some e /\
                 ("click", NavLinkClick navMenu) ∈ listeners e) /\
    (navMenu = None ->
     forall ev q',
       dispatch (MobileMenuClick navMenu) ev q' = TypeError q' /\
       dispatch (NavLinkClick navMenu) ev q' = TypeError q').
Proof.
  intros Hbtn navMenu. unfold mobileNavigationLogic. rewrite Hbtn. cbn [listen bind].
  fold navMenu. eexists. split; [reflexivity|].
  destruct (querySelector_lookup _ _ _ Hbtn) as (e0 & He0 & _).
  rewrite querySelectorAll_on_element by reflexivity.
  set (p1 := on_element btn (addEventListener "click" (MobileMenuClick navMenu)) p).
  assert (H1 : elements p1 !! btn
               = Some (addEventListener "click" (MobileMenuClick navMenu) e0)).
  { unfold p1, on_element. simpl. now rewrite list_lookup_alter_eq, He0. }
  assert (Hlook := fun j =>
    forEach_on_elements_lookup (querySelectorAll ["nav-link"] p)
      (fun _ => addEventListener "click" (NavLinkClick navMenu)) p1 j
      (NoDup_find_from _ _ _)).
  split; [|split].
  - rewrite Hlook, H1. simpl.
    destruct (bool_decide (btn ∈ querySelectorAll ["nav-link"] p)); eexists;
      (split; [reflexivity|]); simpl; rewrite !elem_of_app, !list_elem_of_singleton; tauto.
  - intros link Hlink. rewrite Hlook, (bool_decide_eq_true_2 _ Hlink).
    apply elem_of_querySelectorAll in Hlink as (e & He & _).
    assert (is_Some (elements p1 !! link)) as [e1 He1].
    { destruct (decide (link = btn)) as [->|Hne]; [rewrite H1; eauto|].
      unfold p1, on_element. simpl. rewrite list_lookup_alter_ne by congruence. eauto. }
    rewrite He1. eexists. split; [reflexivity|]. simpl.
    rewrite elem_of_app, list_elem_of_singleton. tauto.
  - intros ->. intros ev q'. split; reflexivity.
Qed.

Lemma navigation_listeners_witness :
  let p := sample_page_without 2 in
  let navMenu := querySelector "main-nav" p in
  exists q,
    mobileNavigationLogic p = Done q /\
    (exists e, elements q !! 1 = Some e /\
               ("click", MobileMenuClick navMenu) ∈ listeners e) /\
    (forall link, link ∈ querySelectorAll ["nav-link"] p ->
       exists e, elements q !! link = Some e /\
                 ("click", NavLinkClick navMenu) ∈ listeners e) /\
    (navMenu = None ->
     forall ev q',
       dispatch (MobileMenuClick navMenu) ev q' = TypeError q' /\
       dispatch (NavLinkClick navMenu) ev q' = TypeError q').
Proof.
  apply (navigation_listeners (sample_page_without 2) 1). reflexivity.
Defined.

(** ** Registration of the reveal and of the tilt *)

Lemma observed_forEach_observe (nodes : list nat) (p : page) (j : nat) :
  j ∈ observed (forEach nodes observe p) <-> j ∈ nodes \/ j ∈ observed p.
Proof.
  unfold forEach. revert p. induction nodes as [|n nodes IH]; intros p; simpl.
  - rewrite elem_of_nil. tauto.
  - rewrite IH. simpl. rewrite elem_of_union, elem_of_singleton, elem_of_cons. tauto.
Qed.

(** X4: the reveal section puts exactly the elements matched by the
    selector list under observation, next to what was observed before; it
    leaves every element that is not matched as it is, and it neither adds
    nor removes an element. *)
Theorem reveal_registration (p : page) (j : nat) :
  (j ∈ observed (scrollRevealLogic p) <->
   j ∈ observed p \/
   exists e, elements p !! j = Some e /\ matches revealSelector e = true) /\
  (forall e, elements p !! j = Some e -> matches revealSelector e = false ->
     elements (scrollRevealLogic p) !! j = Some e) /\
  length (elements (scrollRevealLogic p)) = length (elements p).
Proof.
  split; [|split].
  - unfold scrollRevealLogic. rewrite observed_forEach_observe.
    rewrite elem_of_querySelectorAll.
    rewrite (forEach_frame observed) by reflexivity. tauto.
  - intros e He Hm. rewrite scrollRevealLogic_lookup, He.
    rewrite bool_decide_eq_false_2; [reflexivity|].
    rewrite elem_of_querySelectorAll. intros (e' & He' & Hm'). congruence.
  - apply Nat.le_antisymm.
    + destruct (decide (length (elements (scrollRevealLogic p)) <= length (elements p)))
        as [|Hn]; [assumption|].
      assert (Hlt : length (elements p) < length (elements (scrollRevealLogic p))) by lia.
      apply lookup_lt_is_Some_2 in Hlt as [e He].
      rewrite scrollRevealLogic_lookup in He.
      rewrite (lookup_ge_None_2 (elements p)) in He by lia. discriminate.
    + destruct (decide (length (elements p) <= length (elements (scrollRevealLogic p))))
        as [|Hn]; [assumption|].
      assert (Hlt : length (elements (scrollRevealLogic p)) < length (elements p)) by lia.
      assert (Hnone := lookup_ge_None_2 (elements (scrollRevealLogic p))
                         (length (elements (scrollRevealLogic p))) (Nat.le_refl _)).
      rewrite scrollRevealLogic_lookup in Hnone.
      apply lookup_lt_is_Some_2 in Hlt as [e He]. rewrite He in Hnone. discriminate.
Qed.

(** X5: the tilt section gives every card (an element of class
    [skill-card] or [visual-glass-card]) the class [tilt-card] and, after
    the listeners it had, a [mousemove] and a [mouseleave] listener that
    are bound to this very card; id, rectangle and transform of the card are
    kept.  An element that is not a card is left as it is. *)
Theorem tilt_registration (p : page) (j : nat) (e : element) :
  elements p !! j = Some e ->
  exists e',
    elements (tiltEffectLogic p) !! j = Some e' /\
    if matches ["skill-card"; "visual-glass-card"] e
    then classList e' = DOMTokenList.add "tilt-card" (classList e) /\
         listeners e' = listeners e ++ [("mousemove", TiltMouseMove j);
                                        ("mouseleave", TiltMouseLeave j)] /\
         id e' = id e /\ rect e' = rect e /\ transform e' = transform e
    else e' = e.
Proof.
  intros He. unfold tiltEffectLogic.
  rewrite (forEach_on_elements_lookup _
             (fun card c =>
                addEventListener "mouseleave" (TiltMouseLeave card)
                  (addEventListener "mousemove" (TiltMouseMove card)
                     (set_classList (DOMTokenList.add "tilt-card") c))))
    by apply NoDup_find_from.
  rewrite He. simpl. eexists. split; [reflexivity|].
  destruct (matches ["skill-card"; "visual-glass-card"] e) eqn:Hm.
  - rewrite bool_decide_eq_true_2 by (apply elem_of_querySelectorAll; eauto).
    simpl. unfold matches in Hm. simpl in Hm. rewrite Hm.
    rewrite <- app_assoc. repeat split.
  - rewrite bool_decide_eq_false_2.
    + simpl. unfold matches in Hm. simpl in Hm. now rewrite Hm.
    + rewrite elem_of_querySelectorAll. intros (e' & He' & Hm'). congruence.
Qed.

Lemma tilt_registration_witness :
  exists e',
    elements (tiltEffectLogic (sample_page None)) !! 8 = Some e' /\
    if matches ["skill-card"; "visual-glass-card"]
         (node "" ["visual-glass-card"] (box 550 150 400 300))
    then classList e' = DOMTokenList.add "tilt-card" ["visual-glass-card"] /\
         listeners e' = [] ++ [("mousemove", TiltMouseMove 8);
                               ("mouseleave", TiltMouseLeave 8)] /\
         id e' = "" /\ rect e' = box 550 150 400 300 /\ transform e' = None
    else e' = node "" ["visual-glass-card"] (box 550 150 400 300).
Proof.
  apply (tilt_registration (sample_page None) 8
           (node "" ["visual-glass-card"] (box 550 150 400 300))).
  reflexivity.
Defined.

(** ** Theme: several clicks, reload, and what is left alone *)

(** X6: after any number of clicks on the theme toggle the mode is the
    starting one for an even number and the other one for an odd number,
    and after at least one click the stored string names the mode shown. *)
Theorem theme_clicks_parity (n : nat) (p : page) :
  mode_of (clicks n p) = (if Nat.even n then mode_of p else other_mode (mode_of p)) /\
  persisted (clicks (S n) p) = Some (theme_name (mode_of (clicks (S n) p))).
Proof.
  assert (Hmode : forall k, mode_of (clicks k p)
                            = if Nat.even k then mode_of p else other_mode (mode_of p)).
  { induction k as [|k IH]; [reflexivity|].
    change (clicks (S k) p) with (themeToggleClick (clicks k p)).
    rewrite mode_of_themeToggleClick, IH, Nat.even_succ, <- Nat.negb_even.
    destruct (Nat.even k), (mode_of p); reflexivity. }
  split; [apply Hmode|].
  change (clicks (S n) p) with (themeToggleClick (clicks n p)).
  rewrite persisted_themeToggleClick, mode_of_themeToggleClick.
  unfold mode_of. destruct (hasAttribute "data-theme" (clicks n p)); reflexivity.
Qed.

(** X7: what a click on the toggle stores brings the same mode back on a
    reload: on a page whose root comes without the marker and whose storage
    is the one the click left, [initTheme] (and the whole start-up) shows
    the mode the click had set. *)
Theorem toggle_then_reload (p q : page) :
  localStorage q = localStorage (themeToggleClick p) ->
  hasAttribute "data-theme" q = false ->
  mode_of (initTheme q) = mode_of (themeToggleClick p) /\
  mode_of (page_of (DOMContentLoaded q)) = mode_of (themeToggleClick p).
Proof.
  intros Hs Hq.
  assert (Hp : localStorage q !! THEME_STORAGE_KEY
               = Some (if hasAttribute "data-theme" p then "dark" else "light")).
  { rewrite Hs. apply persisted_themeToggleClick. }
  assert (Hinit : mode_of (initTheme q) = mode_of (themeToggleClick p)).
  { rewrite mode_of_themeToggleClick. unfold initTheme. rewrite Hp.
    unfold mode_of at 2.
    destruct (hasAttribute "data-theme" p); simpl; unfold mode_of;
      rewrite hasAttribute_applyTheme; reflexivity. }
  split; [exact Hinit|].
  rewrite <- Hinit. unfold mode_of, hasAttribute.
  now rewrite DOMContentLoaded_root_attributes.
Qed.

Lemma toggle_then_reload_witness :
  mode_of (initTheme (sample_page (Some "light")))
  = mode_of (themeToggleClick (sample_page None)) /\
  mode_of (page_of (DOMContentLoaded (sample_page (Some "light"))))
  = mode_of (themeToggleClick (sample_page None)).
Proof.
  apply (toggle_then_reload (sample_page None) (sample_page (Some "light")));
    vm_compute; reflexivity.
Defined.

(** X8: a click on the theme toggle touches nothing but the [data-theme]
    attribute of the root, the theme key of the storage and the console,
    to which it adds one line: every other attribute and every other key is
    as before, and so are the elements, the typing variables, the timers
    and the observer. *)
Theorem theme_click_frame (p : page) :
  let q := themeToggleClick p in
  (forall name, name <> "data-theme" ->
     root_attributes q !! name = root_attributes p !! name) /\
  (forall key, key <> THEME_STORAGE_KEY ->
     localStorage q !! key = localStorage p !! key) /\
  (exists line, console q = console p ++ [line]) /\
  elements q = elements p /\ typing q = typing p /\
  timers q = timers p /\ observed q = observed p.
Proof.
  unfold themeToggleClick, applyTheme.
  destruct (hasAttribute "data-theme" p); simpl;
    (split; [intros name Hn; first [now rewrite lookup_delete_ne | now rewrite lookup_insert_ne]|]);
    (split; [intros key Hk; now rewrite lookup_insert_ne|]);
    (split; [eexists; reflexivity|]); repeat split.
Qed.

(** ** Start-up only adds *)

Lemma extends_refl (e : element) : extends e e.
Proof. unfold extends. repeat split; reflexivity. Qed.

Lemma extends_trans (a b c : element) : extends a b -> extends b c -> extends a c.
Proof.
  unfold extends. intros (?&?&?&?&?) (?&?&?&?&?).
  repeat split; try congruence; etrans; eassumption.
Qed.

Lemma grows_refl (p q : page) : elements q = elements p -> grows p q.
Proof.
  unfold grows. intros ->. apply Forall_Forall2_diag, Forall_forall.
  intros e _. apply extends_refl.
Qed.

Lemma grows_trans (p q r : page) : grows p q -> grows q r -> grows p r.
Proof.
  unfold grows. revert q r. generalize (elements p) as l.
  intros l q r. generalize (elements q) as l'. generalize (elements r) as l''.
  intros l'' l' H. revert l''. induction H as [|a b l l' Hab _ IH]; intros l'' H2.
  - inversion H2. constructor.
  - inversion H2 as [|b' c ? m Hbc Hm]; subst. constructor.
    + exact (extends_trans a b c Hab Hbc).
    + now apply IH.
Qed.

Lemma Forall2_extends_alter (f : element -> element) (i : nat) (l : list element) :
  (forall e, extends e (f e)) -> Forall2 extends l (alter f i l).
Proof.
  intros Hf. revert i. induction l as [|e l IH]; intros i; [constructor|].
  destruct i as [|i].
  - change (alter f 0 (e :: l)) with (f e :: l). constructor; [apply Hf|].
    apply Forall_Forall2_diag, Forall_forall. intros x _. apply extends_refl.
  - change (alter f (S i) (e :: l)) with (e :: alter f i l).
    constructor; [apply extends_refl | apply IH].
Qed.

Lemma grows_on_element (i : nat) (f : element -> element) (p : page) :
  (forall e, extends e (f e)) -> grows p (on_element i f p).
Proof. intros Hf. unfold grows, on_element. simpl. now apply Forall2_extends_alter. Qed.

Lemma grows_forEach (nodes : list nat) (f : nat -> page -> page) (p : page) :
  (forall n q, grows q (f n q)) -> grows p (forEach nodes f p).
Proof.
  intros Hf. unfold forEach. revert p.
  induction nodes as [|n nodes IH]; intros p; simpl; [now apply grows_refl|].
  eapply grows_trans; [apply Hf | apply IH].
Qed.

Lemma extends_addEventListener (type : string) (h : handler) (e : element) :
  extends e (addEventListener type h e).
Proof.
  unfold extends. simpl. repeat split; [reflexivity | now apply prefix_app_r].
Qed.

Lemma extends_add (c : string) (e : element) :
  extends e (set_classList (DOMTokenList.add c) e).
Proof. unfold extends. simpl. repeat split; [apply prefix_add | reflexivity]. Qed.

Lemma grows_listen target type h (p : page) : grows p (page_of (listen target type h p)).
Proof.
  destruct target; simpl; [|now apply grows_refl].
  apply grows_on_element. intros e. apply extends_addEventListener.
Qed.

Lemma grows_bind (p : page) (o : outcome) (k : page -> outcome) :
  grows p (page_of o) -> (forall q, grows q (page_of (k q))) ->
  grows p (page_of (bind o k)).
Proof.
  intros Ho Hk. destruct o as [q|q]; simpl in *; [|exact Ho].
  eapply grows_trans; [exact Ho | apply Hk].
Qed.

Lemma grows_scrollRevealLogic (p : page) : grows p (scrollRevealLogic p).
Proof.
  unfold scrollRevealLogic.
  eapply grows_trans; [|apply grows_forEach; intros n r; now apply grows_refl].
  apply grows_forEach. intros n r. apply grows_on_element, extends_add.
Qed.

Lemma grows_tiltEffectLogic (p : page) : grows p (tiltEffectLogic p).
Proof.
  unfold tiltEffectLogic. apply grows_forEach. intros n r.
  apply grows_on_element. intros e.
  eapply extends_trans; [apply extends_add|].
  eapply extends_trans; apply extends_addEventListener.
Qed.

Lemma localStorage_initTheme (p : page) : localStorage (initTheme p) = localStorage p.
Proof.
  unfold initTheme. destruct (localStorage p !! THEME_STORAGE_KEY) as [v|]; [|reflexivity].
  destruct (truthy v); [apply localStorage_applyTheme | reflexivity].
Qed.

Lemma DOMContentLoaded_localStorage (p : page) :
  localStorage (page_of (DOMContentLoaded p)) = localStorage p.
Proof.
  unfold DOMContentLoaded.
  rewrite (bind_frame localStorage).
  - unfold themeToggleLogic. rewrite listen_frame by reflexivity.
    apply localStorage_initTheme.
  - intros q. rewrite (bind_frame localStorage).
    + unfold mobileNavigationLogic. rewrite (bind_frame localStorage).
      * now apply listen_frame.
      * intros q'. simpl. now apply forEach_frame.
    + intros q'. rewrite (bind_frame localStorage).
      * unfold typingEffectLogic, typeEffect_on.
        destruct (querySelector "typing-text" q'); [|reflexivity].
        destruct (typeEffect roles _); reflexivity.
      * intros q''. simpl. unfold tiltEffectLogic, scrollRevealLogic.
        repeat (rewrite (forEach_frame localStorage); [|reflexivity]).
        reflexivity.
Qed.

(** X9: whether it completes or stops on an exception, the start-up code
    only adds to the page.  The page has the same elements afterwards, in
    the same order, each with its id, rectangle and transform, with the
    classes and listeners it had followed by the new ones; nothing is
    written to the storage; and with no stored theme the attributes of the
    root are not touched. *)
Theorem startup_only_adds (p : page) :
  let q := page_of (DOMContentLoaded p) in
  grows p q /\
  localStorage q = localStorage p /\
  (persisted p = None -> root_attributes q = root_attributes p).
Proof.
  split; [|split].
  - unfold DOMContentLoaded. apply grows_bind.
    + unfold themeToggleLogic.
      eapply grows_trans; [apply grows_refl, elements_initTheme | apply grows_listen].
    + intros q. apply grows_bind.
      * unfold mobileNavigationLogic. apply grows_bind; [apply grows_listen|].
        intros q'. simpl. apply grows_forEach. intros n r.
        apply grows_on_element. intros e. apply extends_addEventListener.
      * intros q'. apply grows_bind.
        -- unfold typingEffectLogic, typeEffect_on.
           destruct (querySelector "typing-text" q'); [|now apply grows_refl].
           destruct (typeEffect roles _); now apply grows_refl.
        -- intros q''. cbn [page_of].
           eapply grows_trans; [apply grows_scrollRevealLogic | apply grows_tiltEffectLogic].
  - apply DOMContentLoaded_localStorage.
  - unfold persisted. intros Hp. rewrite DOMContentLoaded_root_attributes.
    unfold initTheme. now rewrite Hp.
Qed.

(** ** Typing effect: what is shown, and a whole word *)

Lemma substring0_zero (role : string) : substring0 role 0 = "".
Proof. unfold substring0. simpl. now destruct role. Qed.

Lemma substring_all (role : string) : String.substring 0 (String.length role) role = role.
Proof. induction role as [|a role IH]; simpl; [reflexivity | now rewrite IH]. Qed.

Lemma substring0_all (role : string) : substring0 role (strlen role) = role.
Proof. unfold substring0, strlen. rewrite Nat2Z.id. apply substring_all. Qed.

Lemma length_substring (n : nat) (role : string) :
  n <= String.length role -> String.length (String.substring 0 n role) = n.
Proof.
  revert role. induction n as [|n IH]; intros role Hn.
  - now destruct role.
  - destruct role as [|a role]; simpl in *; [lia|]. rewrite IH; lia.
Qed.

Lemma strlen_substring0 (role : string) (k : Z) :
  (0 <= k <= strlen role)%Z -> strlen (substring0 role k) = k.
Proof.
  unfold strlen, substring0. intros Hk. rewrite length_substring by lia. lia.
Qed.

(** X10: after every call of [typeEffect] made from a reachable state, the
    text of the typing element is the beginning of the role the index now
    names, cut at the cursor; so it has exactly [charIndex] characters. *)
Theorem displayed_text_is_prefix (roles : list string) (s s' : typing_state) :
  Forall (fun role => role <> "") roles ->
  reachable roles s ->
  typeEffect roles s = Some s' ->
  exists role,
    roles !! roleIndex s' = Some role /\
    textContent s' = substring0 role (charIndex s') /\
    strlen (textContent s') = charIndex s'.
Proof.
  intros Hne Hr Hstep.
  assert (Hroles : roles <> []).
  { intros ->. unfold typeEffect in Hstep. now rewrite lookup_nil in Hstep. }
  destruct (reachable_inv roles Hne s Hroles Hr) as (role & Hrole & Hc).
  assert (Hinv' : typing_inv roles s') by (eapply typing_inv_tick; eauto; exists role; eauto).
  destruct Hinv' as (role' & Hrole' & Hc').
  exists role'. split; [exact Hrole'|].
  unfold typeEffect in Hstep. rewrite Hrole in Hstep.
  destruct (isDeleting s) eqn:Hd; simpl in Hstep.
  - destruct (charIndex s - 1 =? 0)%Z eqn:Hz; injection Hstep as <-; simpl in *.
    + apply Z.eqb_eq in Hz. rewrite Hz, !substring0_zero. split; reflexivity.
    + rewrite Hrole in Hrole'. injection Hrole' as <-.
      split; [reflexivity | apply strlen_substring0; lia].
  - destruct (charIndex s + 1 =? strlen role)%Z eqn:Hz; injection Hstep as <-; simpl in *;
      rewrite Hrole in Hrole'; injection Hrole' as <-;
      (split; [reflexivity | apply strlen_substring0; lia]).
Qed.

Lemma displayed_text_is_prefix_witness :
  exists role,
    roles !! 0 = Some role /\
    "L" = substring0 role 1 /\
    strlen "L" = 1%Z.
Proof.
  apply (displayed_text_is_prefix roles (initial_typing "")
           {| textContent := "L"; roleIndex := 0; charIndex := 1;
              isDeleting := false; typeSpeed := 100 |}).
  - repeat constructor; discriminate.
  - constructor.
  - reflexivity.
Defined.

Section WholeWord.

Variable roles : list string.
Variable i : nat.
Variable role : string.
Hypothesis role_at_i : roles !! i = Some role.

Let word (text : string) (c : Z) (d : bool) (speed : Z) : typing_state :=
  {| textContent := text; roleIndex := i; charIndex := c;
     isDeleting := d; typeSpeed := speed |}.

(** Typing from cursor [c] up to the end of the role takes [S k] calls when
    [k] characters are missing before the last one. *)
Lemma typing_run (k : nat) (c : Z) (text : string) (speed : Z) :
  (0 <= c)%Z -> (c + Z.of_nat k + 1 = strlen role)%Z ->
  ticks roles (S k) (word text c false speed) = Some (word role (strlen role) true 2000) /\
  total_delay roles (S k) (word text c false speed) = (100 * Z.of_nat k + 2000)%Z.
Proof.
  revert c text speed. induction k as [|k IH]; intros c text speed Hc Hk.
  - simpl. unfold typeEffect. simpl. rewrite role_at_i. simpl.
    assert (E : (c + 1 =? strlen role)%Z = true) by (apply Z.eqb_eq; lia).
    rewrite E. simpl. replace (c + 1)%Z with (strlen role) by lia.
    rewrite substring0_all. split; reflexivity.
  - assert (Hstep : typeEffect roles (word text c false speed)
                    = Some (word (substring0 role (c + 1)) (c + 1) false 100)).
    { unfold typeEffect. simpl. rewrite role_at_i. simpl.
      assert (E : (c + 1 =? strlen role)%Z = false) by (apply Z.eqb_neq; lia).
      now rewrite E. }
    destruct (IH (c + 1)%Z (substring0 role (c + 1)) 100%Z) as [Ht Hd]; [lia | lia |].
    split.
    + change (ticks roles (S (S k)) ?s)
        with (match typeEffect roles s with
              | Some s' => ticks roles (S k) s' | None => None end).
      rewrite Hstep. exact Ht.
    + change (total_delay roles (S (S k)) ?s)
        with (match typeEffect roles s with
              | Some s' => (typeSpeed s' + total_delay roles (S k) s')%Z
              | None => 0%Z end).
      rewrite Hstep, Hd. simpl typeSpeed. lia.
Qed.

(** Deleting from cursor [k + 1] down to the empty text takes [S k] calls. *)
Lemma deleting_run (k : nat) (text : string) (speed : Z) :
  ticks roles (S k) (word text (Z.of_nat k + 1) true speed)
  = Some {| textContent := ""; roleIndex := (i + 1) mod length roles; charIndex := 0;
            isDeleting := false; typeSpeed := 500 |} /\
  total_delay roles (S k) (word text (Z.of_nat k + 1) true speed)
  = (50 * Z.of_nat k + 500)%Z.
Proof.
  revert text speed. induction k as [|k IH]; intros text speed.
  - simpl. unfold typeEffect. simpl. rewrite role_at_i. simpl.
    rewrite substring0_zero. split; reflexivity.
  - assert (Hstep : typeEffect roles (word text (Z.of_nat (S k) + 1) true speed)
                    = Some (word (substring0 role (Z.of_nat k + 1)) (Z.of_nat k + 1) true 50)).
    { unfold typeEffect. simpl roleIndex. rewrite role_at_i. simpl isDeleting.
      cbn [charIndex word negb andb].
      assert (E : (Z.of_nat (S k) + 1 - 1 =? 0)%Z = false) by (apply Z.eqb_neq; lia).
      rewrite E. unfold word.
      replace (Z.of_nat (S k) + 1 - 1)%Z with (Z.of_nat k + 1)%Z by lia. reflexivity. }
    destruct (IH (substring0 role (Z.of_nat k + 1)) 50%Z) as [Ht Hd].
    split.
    + change (ticks roles (S (S k)) ?s)
        with (match typeEffect roles s with
              | Some s' => ticks roles (S k) s' | None => None end).
      rewrite Hstep. exact Ht.
    + change (total_delay roles (S (S k)) ?s)
        with (match typeEffect roles s with
              | Some s' => (typeSpeed s' + total_delay roles (S k) s')%Z
              | None => 0%Z end).
      rewrite Hstep, Hd. simpl typeSpeed. lia.
Qed.

End WholeWord.

Lemma ticks_add (roles : list string) (a b : nat) (s : typing_state) :
  ticks roles (a + b) s = ticks roles a s ≫= ticks roles b.
Proof.
  revert s. induction a as [|a IH]; intros s; simpl; [reflexivity|].
  destruct (typeEffect roles s); [apply IH | reflexivity].
Qed.

Lemma total_delay_add (roles : list string) (a b : nat) (s s' : typing_state) :
  ticks roles a s = Some s' ->
  total_delay roles (a + b) s = (total_delay roles a s + total_delay roles b s')%Z.
Proof.
  revert s. induction a as [|a IH]; intros s; simpl.
  - now intros [= ->].
  - destruct (typeEffect roles s) as [s1|]; [|discriminate].
    intros H. rewrite (IH _ H). lia.
Qed.

(** X11: a whole word.  From the start of a non-empty role (cursor 0,
    typing), as many calls as the role has characters show the role in
    full, with the phase switched to deleting and a delay of 2000; as many
    calls again show the empty text, with the phase back to typing, the
    index moved to the next role (cyclically) and a delay of 500.  The
    delays of these calls add up to 150 per character plus 2350. *)
Theorem whole_word_cycle (roles : list string) (s : typing_state) (role : string) :
  roles !! roleIndex s = Some role ->
  role <> "" ->
  charIndex s = 0%Z ->
  isDeleting s = false ->
  let n := String.length role in
  ticks roles n s
  = Some {| textContent := role; roleIndex := roleIndex s; charIndex := strlen role;
            isDeleting := true; typeSpeed := 2000 |} /\
  ticks roles (n + n) s
  = Some {| textContent := ""; roleIndex := (roleIndex s + 1) mod length roles;
            charIndex := 0; isDeleting := false; typeSpeed := 500 |} /\
  total_delay roles (n + n) s = (150 * strlen role + 2350)%Z.
Proof.
  destruct s as [text i c d speed]. simpl. intros Hrole Hne -> ->.
  destruct (String.length role) as [|k] eqn:Hlen; [now destruct role|].
  assert (Hk : strlen role = (Z.of_nat k + 1)%Z) by (unfold strlen; lia).
  destruct (typing_run roles i role Hrole k 0%Z text speed) as [Ht Hd]; [lia | lia |].
  destruct (deleting_run roles i role Hrole k role 2000%Z) as [Ht' Hd'].
  rewrite <- Hk in Ht', Hd'.
  split; [exact Ht|]. split.
  - rewrite ticks_add, Ht. exact Ht'.
  - rewrite (total_delay_add _ _ _ _ _ Ht), Hd, Hd'. lia.
Qed.

Lemma whole_word_cycle_witness :
  let s := initial_typing "" in
  let role := "Lakdaram Sridhar Yadav" in
  let n := String.length role in
  ticks roles n s
  = Some {| textContent := role; roleIndex := roleIndex s; charIndex := strlen role;
            isDeleting := true; typeSpeed := 2000 |} /\
  ticks roles (n + n) s
  = Some {| textContent := ""; roleIndex := (roleIndex s + 1) mod length roles;
            charIndex := 0; isDeleting := false; typeSpeed := 500 |} /\
  total_delay roles (n + n) s = (150 * strlen role + 2350)%Z.
Proof.
  apply (whole_word_cycle roles (initial_typing "") "Lakdaram Sridhar Yadav");
    [reflexivity | discriminate | reflexivity | reflexivity].
Defined.

(** X12: a role that is the empty string stalls the animator.  While
    typing it, every call shows the empty text and moves the cursor one
    further, away from the length 0: the phase never switches to deleting
    and the index never moves on, however many calls are made. *)
Theorem empty_role_never_completes (roles : list string) (n : nat) (s : typing_state) :
  roles !! roleIndex s = Some "" ->
  isDeleting s = false ->
  (0 <= charIndex s)%Z ->
  exists s',
    ticks roles n s = Some s' /\
    isDeleting s' = false /\
    roleIndex s' = roleIndex s /\
    charIndex s' = (charIndex s + Z.of_nat n)%Z /\
    (0 < n -> textContent s' = "" /\ typeSpeed s' = 100%Z).
Proof.
  revert s. induction n as [|n IH]; intros s Hrole Hd Hc.
  - exists s. simpl. repeat split; auto; lia.
  - assert (Hstep : typeEffect roles s
                    = Some {| textContent := ""; roleIndex := roleIndex s;
                              charIndex := charIndex s + 1; isDeleting := false;
                              typeSpeed := 100 |}).
    { unfold typeEffect. rewrite Hrole, Hd. simpl.
      assert (E : (charIndex s + 1 =? strlen "")%Z = false)
        by (apply Z.eqb_neq; unfold strlen; simpl; lia).
      rewrite E. unfold substring0. simpl. now destruct (Z.to_nat (charIndex s + 1)). }
    destruct (IH {| textContent := ""; roleIndex := roleIndex s;
                    charIndex := charIndex s + 1; isDeleting := false;
                    typeSpeed := 100 |} Hrole eq_refl ltac:(simpl; lia))
      as (s' & Ht & Hd' & Hi & Hc' & Hx).
    exists s'. simpl ticks. rewrite Hstep. simpl in *.
    split; [exact Ht|]. split; [exact Hd'|]. split; [exact Hi|]. split; [lia|].
    intros _. destruct n as [|n]; [|apply Hx; lia].
    simpl in Ht. injection Ht as <-. split; reflexivity.
Qed.

Lemma empty_role_never_completes_witness :
  exists s',
    ticks ["Dev"; ""] 7 {| textContent := ""; roleIndex := 1; charIndex := 0;
                           isDeleting := false; typeSpeed := 500 |} = Some s' /\
    isDeleting s' = false /\
    roleIndex s' = 1 /\
    charIndex s' = (0 + Z.of_nat 7)%Z /\
    (0 < 7 -> textContent s' = "" /\ typeSpeed s' = 100%Z).
Proof.
  apply (empty_role_never_completes ["Dev"; ""] 7
           {| textContent := ""; roleIndex := 1; charIndex := 0;
              isDeleting := false; typeSpeed := 500 |});
    [reflexivity | reflexivity | simpl; lia].
Defined.

(** ** 3D tilt: bounds, a card without area, and what a handler touches *)

Lemma alter_alter (f g : element -> element) (i : nat) (l : list element) :
  alter f i (alter g i l) = alter (fun e => f (g e)) i l.
Proof.
  revert i. induction l as [|e l IH]; intros i; [reflexivity|].
  destruct i as [|i].
  - reflexivity.
  - change (alter g (S i) (e :: l)) with (e :: alter g i l).
    change (alter f (S i) (e :: alter g i l)) with (e :: alter f i (alter g i l)).
    now rewrite IH.
Qed.

Section TiltGeometry.

Local Open Scope Q_scope.

Lemma is_zero_true (q : Q) : q == 0 -> Num.is_zero q = true.
Proof. unfold Num.is_zero, Qeq. simpl. intros H. apply Z.eqb_eq. lia. Qed.

Lemma is_pos_spec (q : Q) : Num.is_pos q = true <-> 0 < q.
Proof. unfold Num.is_pos, Qlt. simpl. rewrite Z.ltb_lt. lia. Qed.

(** X14: while the pointer is inside the rectangle of a card with an area,
    both rotations are finite and lie between -10 and 10 degrees. *)
Theorem tilt_within_ten_degrees (r : DOMRect) (ev : MouseEvent) :
  0 < rect_width r -> 0 < rect_height r ->
  rect_left r <= clientX ev <= rect_left r + rect_width r ->
  rect_top r <= clientY ev <= rect_top r + rect_height r ->
  exists rx ry,
    rotateX (tilt_of r ev) = Num.Finite rx /\
    rotateY (tilt_of r ev) = Num.Finite ry /\
    -10 <= rx <= 10 /\ -10 <= ry <= 10.
Proof.
  intros Hw Hh [Hx1 Hx2] [Hy1 Hy2].
  destruct (tilt_of_finite r ev Hw Hh) as [-> ->].
  eexists. eexists. split; [reflexivity|]. split; [reflexivity|].
  assert (Ew : rect_width r / 2 + rect_width r / 2 == rect_width r) by field.
  assert (Eh : rect_height r / 2 + rect_height r / 2 == rect_height r) by field.
  set (dw := rect_width r / 2) in *. set (dh := rect_height r / 2) in *.
  clearbody dw dh.
  set (u := (clientY ev - rect_top r - dh) / dh).
  set (v := (clientX ev - rect_left r - dw) / dw).
  assert (Hu : -1 <= u <= 1).
  { unfold u. split; [apply Qle_shift_div_l | apply Qle_shift_div_r]; lra. }
  assert (Hv : -1 <= v <= 1).
  { unfold v. split; [apply Qle_shift_div_l | apply Qle_shift_div_r]; lra. }
  clearbody u v. lra.
Qed.

Lemma tilt_within_ten_degrees_witness :
  exists rx ry,
    rotateX (tilt_of (box 0 700 200 100) {| clientX := 150; clientY := 710 |})
    = Num.Finite rx /\
    rotateY (tilt_of (box 0 700 200 100) {| clientX := 150; clientY := 710 |})
    = Num.Finite ry /\
    -10 <= rx <= 10 /\ -10 <= ry <= 10.
Proof.
  apply (tilt_within_ten_degrees (box 0 700 200 100) {| clientX := 150; clientY := 710 |});
    simpl; lra.
Defined.

(** X15: a card without width has no finite rotateY.  The division by the
    half width, which is zero, gives NaN when the pointer is exactly on the
    left edge and an infinity of the sign of the horizontal offset
    otherwise. *)
Theorem tilt_zero_width (r : DOMRect) (ev : MouseEvent) :
  rect_width r == 0 ->
  let x := clientX ev - rect_left r in
  (x == 0 -> rotateY (tilt_of r ev) = Num.NaN) /\
  (0 < x -> rotateY (tilt_of r ev) = Num.PosInfinity) /\
  (x < 0 -> rotateY (tilt_of r ev) = Num.NegInfinity).
Proof.
  intros Hw x. unfold tilt_of. cbn [rotateY].
  assert (W2 : Num.div (Num.Finite (rect_width r)) (Num.Finite 2)
               = Num.Finite (rect_width r / 2)) by reflexivity.
  rewrite W2. cbn [Num.sub Num.div].
  assert (Hz : Num.is_zero (rect_width r / 2) = true)
    by (apply is_zero_true; rewrite Hw; reflexivity).
  rewrite Hz. fold x.
  assert (Hx : x - rect_width r / 2 == x) by (rewrite Hw; field).
  split; [|split]; intros H.
  - rewrite (is_zero_true (x - rect_width r / 2)) by (rewrite Hx; exact H). reflexivity.
  - rewrite (is_zero_false (x - rect_width r / 2)) by (rewrite Hx; lra).
    rewrite (proj2 (is_pos_spec _)) by (rewrite Hx; exact H). reflexivity.
  - rewrite (is_zero_false (x - rect_width r / 2)) by (rewrite Hx; lra).
    destruct (Num.is_pos (x - rect_width r / 2)) eqn:E; [|reflexivity].
    apply is_pos_spec in E. rewrite Hx in E. lra.
Qed.

Lemma tilt_zero_width_witness :
  let r := box 10 20 0 50 in
  let ev := {| clientX := 12; clientY := 30 |} in
  let x := clientX ev - rect_left r in
  (x == 0 -> rotateY (tilt_of r ev) = Num.NaN) /\
  (0 < x -> rotateY (tilt_of r ev) = Num.PosInfinity) /\
  (x < 0 -> rotateY (tilt_of r ev) = Num.NegInfinity).
Proof.
  apply (tilt_zero_width (box 10 20 0 50) {| clientX := 12; clientY := 30 |}).
  reflexivity.
Defined.

Lemma rotateY_not_finite (r : DOMRect) (ev : MouseEvent) :
  rect_width r == 0 -> Num.is_finite (rotateY (tilt_of r ev)) = false.
Proof.
  intros Hw. unfold tilt_of. cbn [rotateY].
  assert (W2 : Num.div (Num.Finite (rect_width r)) (Num.Finite 2)
               = Num.Finite (rect_width r / 2)) by reflexivity.
  rewrite W2. cbn [Num.sub Num.div].
  rewrite (is_zero_true (rect_width r / 2)) by (rewrite Hw; reflexivity).
  destruct (Num.is_zero _); [reflexivity|]. destruct (Num.is_pos _); reflexivity.
Qed.

Lemma rotateX_not_finite (r : DOMRect) (ev : MouseEvent) :
  rect_height r == 0 -> Num.is_finite (rotateX (tilt_of r ev)) = false.
Proof.
  intros Hh. unfold tilt_of. cbn [rotateX].
  assert (H2 : Num.div (Num.Finite (rect_height r)) (Num.Finite 2)
               = Num.Finite (rect_height r / 2)) by reflexivity.
  rewrite H2. cbn [Num.sub Num.div].
  rewrite (is_zero_true (rect_height r / 2)) by (rewrite Hh; reflexivity).
  destruct (Num.is_zero _); [reflexivity|]. destruct (Num.is_pos _); reflexivity.
Qed.

Lemma set_transform_assign (t t' : css_transform) (e : element) :
  set_transform t (assign_transform t' e) = set_transform t e.
Proof. unfold assign_transform. now destruct (_ && _). Qed.

Lemma assign_transform_finite (r : DOMRect) (ev : MouseEvent) (e : element) :
  0 < rect_width r -> 0 < rect_height r ->
  assign_transform (tilt_of r ev) e = set_transform (tilt_of r ev) e.
Proof.
  intros Hw Hh. unfold assign_transform.
  now destruct (tilt_of_finite r ev Hw Hh) as [-> ->].
Qed.

Lemma assign_transform_dropped (r : DOMRect) (ev : MouseEvent) (e : element) :
  rect_width r == 0 \/ rect_height r == 0 ->
  assign_transform (tilt_of r ev) e = e.
Proof.
  intros H. unfold assign_transform. destruct H as [H|H].
  - rewrite (rotateY_not_finite r ev H). now rewrite andb_false_r.
  - now rewrite (rotateX_not_finite r ev H).
Qed.

(** X13: which event decides the transform of a card.  A [mouseleave]
    after a [mousemove] leaves the page as a [mouseleave] alone does.  A
    [mousemove] for which the browser reports a bounding rectangle with an
    area replaces whatever an earlier [mousemove] wrote; one for which the
    rectangle has no width or no height writes nothing, and the page stays
    as the earlier event left it.  Either handler leaves every other element
    as it is, and on its card it changes the transform or nothing. *)
Theorem tilt_last_event_wins (card : nat) (r1 r2 : DOMRect) (ev1 ev2 : MouseEvent)
    (p : page) :
  tiltMouseLeave card (tiltMouseMove card r1 ev1 p) = tiltMouseLeave card p /\
  (0 < rect_width r2 -> 0 < rect_height r2 ->
   tiltMouseMove card r2 ev2 (tiltMouseMove card r1 ev1 p)
   = tiltMouseMove card r2 ev2 p) /\
  (rect_width r2 == 0 \/ rect_height r2 == 0 ->
   tiltMouseMove card r2 ev2 (tiltMouseMove card r1 ev1 p)
   = tiltMouseMove card r1 ev1 p) /\
  (forall j, j <> card ->
     elements (tiltMouseMove card r1 ev1 p) !! j = elements p !! j /\
     elements (tiltMouseLeave card p) !! j = elements p !! j) /\
  (forall c, elements p !! card = Some c ->
     (elements (tiltMouseMove card r1 ev1 p) !! card = Some c \/
      elements (tiltMouseMove card r1 ev1 p) !! card
      = Some (set_transform (tilt_of r1 ev1) c)) /\
     exists t, elements (tiltMouseLeave card p) !! card = Some (set_transform t c) /\
               rotateX t = Num.Finite 0 /\ rotateY t = Num.Finite 0 /\ scale t = 1).
Proof.
  destruct p as [es ra ls co ty ti ob].
  unfold tiltMouseLeave, tiltMouseMove, on_element, set_elements. simpl.
  split; [|split; [|split; [|split]]].
  - f_equal. rewrite alter_alter. apply list_alter_ext; [|reflexivity].
    intros x _. apply set_transform_assign.
  - intros Hw Hh. f_equal. rewrite alter_alter. apply list_alter_ext; [|reflexivity].
    intros x _. rewrite !(assign_transform_finite r2) by assumption.
    apply set_transform_assign.
  - intros H. f_equal. apply list_alter_id. intros x.
    now apply assign_transform_dropped.
  - intros j Hj. split; now rewrite list_lookup_alter_ne.
  - intros c Hc. rewrite !list_lookup_alter_eq, Hc. simpl. split.
    + unfold assign_transform. destruct (_ && _); [now right | now left].
    + eexists. split; [reflexivity|]. split; [|split]; reflexivity.
Qed.

End TiltGeometry.

(** ** Reveal: what a notification never does *)

Lemma revealCallback_nothing (entries : list IntersectionObserverEntry) (p : page) :
  Forall (fun entry => isIntersecting entry = false) entries ->
  revealCallback entries p = p.
Proof.
  unfold revealCallback. induction 1 as [|entry entries Hi _ IH]; simpl; [reflexivity|].
  now rewrite Hi.
Qed.

(** X16: the callback of the observer ignores the entries that are not
    intersecting: it does what it does on the batch without them, and a
    batch with no intersecting entry leaves the page exactly as it is.  It
    does not ask whether a target is observed: any element an entry reports
    as intersecting carries [active] afterwards and is not observed. *)
Theorem callback_ignores_non_intersecting
    (entries : list IntersectionObserverEntry) (p : page) :
  revealCallback entries p
  = revealCallback (filter (fun entry => isIntersecting entry = true) entries) p /\
  (Forall (fun entry => isIntersecting entry = false) entries ->
   revealCallback entries p = p) /\
  (forall j e, elements p !! j = Some e -> intersects j entries = true ->
     "active" ∈ classes_of j (revealCallback entries p) /\
     (j ∉ observed (revealCallback entries p))).
Proof.
  split; [|split].
  - unfold revealCallback. revert p.
    induction entries as [|entry entries IH]; intros p; [reflexivity|].
    rewrite filter_cons. simpl. destruct (isIntersecting entry) eqn:Hi.
    + rewrite decide_True by reflexivity. simpl. rewrite Hi. apply IH.
    + rewrite decide_False by discriminate. apply IH.
  - apply revealCallback_nothing.
  - intros j e He Hi. split.
    + unfold classes_of. rewrite revealCallback_lookup, He, Hi. simpl.
      apply elem_of_add. now left.
    + intros Ho. apply revealCallback_observed in Ho as [_ Ho]. congruence.
Qed.

(** X17: the callback of the observer adds the class [active] and
    unobserves, and does nothing else.  After any batch of entries every
    element is still there with its id, rectangle, transform and listeners;
    its classes are the ones it had, with [active] added after them when an
    entry reported it as intersecting and unchanged otherwise; the observer
    holds exactly its earlier targets less the ones reported as
    intersecting; root, storage, console, typing variables and timers are
    as before. *)
Theorem revealCallback_only_adds (entries : list IntersectionObserverEntry) (p : page) :
  let q := revealCallback entries p in
  (forall j e, elements p !! j = Some e ->
     exists e', elements q !! j = Some e' /\
                id e' = id e /\ rect e' = rect e /\ transform e' = transform e /\
                listeners e' = listeners e /\
                classList e' = (if intersects j entries
                                then DOMTokenList.add "active" (classList e)
                                else classList e)) /\
  (forall j, elements p !! j = None -> elements q !! j = None) /\
  (forall j, j ∈ observed q <-> j ∈ observed p /\ intersects j entries = false) /\
  root_attributes q = root_attributes p /\
  localStorage q = localStorage p /\
  console q = console p /\
  typing q = typing p /\
  timers q = timers p.
Proof.
  intros q. split; [|split; [|split]].
  - intros j e He. unfold q. rewrite revealCallback_lookup, He. simpl.
    eexists. split; [reflexivity|].
    destruct (intersects j entries); repeat split.
  - intros j Hn. unfold q. now rewrite revealCallback_lookup, Hn.
  - intros j. apply revealCallback_observed.
  - unfold q, revealCallback. clear q. revert p.
    induction entries as [|entry entries IH]; intros p; simpl; [repeat split|].
    destruct (isIntersecting entry); [|apply IH].
    destruct (IH (unobserve (target entry)
                    (on_element (target entry)
                       (set_classList (DOMTokenList.add "active")) p)))
      as (Hr & Hl & Hc & Ht & Hm).
    rewrite Hr, Hl, Hc, Ht, Hm. repeat split.
Qed.

(** ** Typing effect at start-up *)

(** X18: the typing section of the start-up never throws.  With a typing
    element on the page it makes the first call at once: the first
    character of the first role is shown, the cursor is 1 and one timer of
    100 is added.  Without one, no timer is added and the text is not
    touched; the variables are only initialised. *)
Theorem typing_starts_only_with_element (p : page) :
  exists q,
    typingEffectLogic p = Done q /\
    elements q = elements p /\
    match querySelector "typing-text" p with
    | Some _ =>
        typing q = {| textContent := "L"; roleIndex := 0; charIndex := 1;
                      isDeleting := false; typeSpeed := 100 |} /\
        timers q = timers p ++ [100%Z]
    | None =>
        typing q = initial_typing (textContent (typing p)) /\
        timers q = timers p
    end.
Proof.
  unfold typingEffectLogic. destruct (querySelector "typing-text" p) as [el|].
  - eexists. split; [reflexivity|]. repeat split.
  - eexists. split; [reflexivity|]. repeat split.
Qed.
